(** * lighttpd2: the header collection and the request validator

    A shallow embedding of [src/http_headers.c] and [src/request.c].

    - Character data is [list ascii]; a [GString] is the list of its [len]
      bytes, and reading it as a C string stops at the first NUL byte or at
      the terminator that follows the last byte.
    - A [GQueue] is the sequence of the links ever pushed on it; a link is
      named by its place in that sequence and a deleted link leaves a hole,
      so that the names of the other links stay what they were, as their
      addresses do in C.
    - Collections live in a heap of [http_headers] objects, because
      [http_headers_try_reset] tells "the same object" from "a new one".
    - The validator returns an [outcome]: accepted, rejected with the status
      handed to [bad_request], or a fault where the C code has undefined
      behaviour. *)

From Stdlib Require Import ZArith Ascii String Lia.
From Equations Require Import Equations.
From stdpp Require Import base list.

Local Open Scope Z_scope.

(** ** Characters and C strings (libc and glib) *)

Module CStr.

Definition gchar := ascii.

(** The bytes of a string literal; [CONST_STR_LEN("host")] in the source is
    the literal together with its length. *)
Definition CONST_STR_LEN (s : String.string) : list gchar :=
  String.list_ascii_of_string s.
Arguments CONST_STR_LEN s%_string.

Definition code (c : gchar) : Z := Z.of_N (N_of_ascii c).

Definition NUL : gchar := Ascii.zero.

Definition is_nul (c : gchar) : bool := (code c =? 0).

(** Reading the byte under a pointer into a buffer: the terminator once
    the bytes are used up. *)
Definition peek (s : list gchar) : gchar :=
  match s with
  | [] => NUL
  | c :: _ => c
  end.

(** The C string that starts at a pointer: the bytes before the first NUL. *)
Fixpoint c_str (s : list gchar) : list gchar :=
  match s with
  | [] => []
  | c :: r => if is_nul c then [] else c :: c_str r
  end.

(** glib: [ISUPPER (c) ? (c) - 'A' + 'a' : (c)]. *)
Definition TOLOWER (c : gchar) : gchar :=
  if (65 <=? code c) && (code c <=? 90)
  then ascii_of_N (Z.to_N (code c - 65 + 97))
  else c.

(** glib [g_ascii_strncasecmp (s1, s2, n)]: while [n] is not used up and
    neither string is at its NUL, lower both bytes and return their difference
    if they differ; after the loop return the difference of the two bytes
    under the pointers if [n] is not used up, and 0 if it is. *)
Fixpoint g_ascii_strncasecmp (s1 s2 : list gchar) (n : nat) : Z :=
  match n with
  | O => 0
  | S n' =>
      if is_nul (peek s1) || is_nul (peek s2)
      then code (peek s1) - code (peek s2)
      else
        let c1 := code (TOLOWER (peek s1)) in
        let c2 := code (TOLOWER (peek s2)) in
        if negb (c1 =? c2) then c1 - c2
        else g_ascii_strncasecmp (tail s1) (tail s2) n'
  end.

(** glib [g_ascii_strcasecmp (s1, s2)]: the same loop without the count. *)
Fixpoint g_ascii_strcasecmp (s1 s2 : list gchar) : Z :=
  match s1 with
  | [] => code (peek s1) - code (peek s2)
  | a :: r1 =>
      if is_nul a || is_nul (peek s2)
      then code a - code (peek s2)
      else
        let c1 := code (TOLOWER a) in
        let c2 := code (TOLOWER (peek s2)) in
        if negb (c1 =? c2) then c1 - c2
        else g_ascii_strcasecmp r1 (tail s2)
  end.

(** libc [strcasecmp], in the C locale. *)
Definition strcasecmp (s1 s2 : list gchar) : Z := g_ascii_strcasecmp s1 s2.

(** libc [strcmp]. *)
Fixpoint strcmp (s1 s2 : list gchar) : Z :=
  match s1 with
  | [] => code (peek s1) - code (peek s2)
  | a :: r1 =>
      if is_nul a || negb (code a =? code (peek s2))
      then code a - code (peek s2)
      else strcmp r1 (tail s2)
  end.

(** libc [isspace] and [isdigit], in the C locale. *)
Definition isspace (c : gchar) : bool :=
  (code c =? 32) || ((9 <=? code c) && (code c <=? 13)).

Definition isdigit (c : gchar) : bool :=
  (48 <=? code c) && (code c <=? 57).

Fixpoint skip_space (s : list gchar) : list gchar :=
  match s with
  | c :: r => if isspace c then skip_space r else s
  | [] => []
  end.

(** The digits at the head of [s], accumulated in base 10 on top of [acc],
    how many there were, and what follows them. *)
Fixpoint digits (acc : Z) (n : nat) (s : list gchar) : Z * nat * list gchar :=
  match s with
  | c :: r => if isdigit c then digits (acc * 10 + (code c - 48)) (S n) r
              else (acc, n, s)
  | [] => (acc, n, [])
  end.

(** The spec's comparison of two names or values: the same length and equal
    byte for byte once upper-case ASCII letters are lowered. *)
Fixpoint ascii_caseless_eq (a b : list gchar) : bool :=
  match a, b with
  | [], [] => true
  | x :: a', y :: b' => (code (TOLOWER x) =? code (TOLOWER y)) && ascii_caseless_eq a' b'
  | _, _ => false
  end.

Definition nul_free (s : list gchar) : Prop := Forall (fun c => is_nul c = false) s.

End CStr.
Import CStr.

(** ** Platform constants

    [gsize], [off_t] and [errno] values come from headers that are not part
    of the sources at hand; they are taken as parameters. *)

Class Platform := {
  G_MAXSIZE : Z;       (* the largest [gsize] *)
  STR_OFF_T_MIN : Z;   (* the least [off_t], what [str_to_off_t] clamps to *)
  STR_OFF_T_MAX : Z;   (* the largest [off_t] *)
  ERANGE : Z;
}.

(** libc [strtol]/[strtoll] in base 10, which [str_to_off_t] names: skip
    white space, read a sign and digits; without a digit nothing is
    converted, the value is 0 and the end pointer is the start; out of range
    the value is clamped and [errno] set to [ERANGE], otherwise [errno] is
    left as it was. The result is the value, what the end pointer points to,
    and [errno] after the call. *)
Definition str_to_off_t `{Platform} (errno : Z) (nptr : list gchar)
  : Z * list gchar * Z :=
  let s := skip_space nptr in
  let '(neg, s1) :=
    match s with
    | c :: r => if code c =? 45 then (true, r)
                else if code c =? 43 then (false, r) else (false, s)
    | [] => (false, s)
    end in
  let '(v, n, rest) := digits 0 0 s1 in
  match n with
  | O => (0, nptr, errno)
  | S _ =>
      let r := if neg : bool then - v else v in
      if r <? STR_OFF_T_MIN then (STR_OFF_T_MIN, rest, ERANGE)
      else if STR_OFF_T_MAX <? r then (STR_OFF_T_MAX, rest, ERANGE)
      else (r, rest, errno)
  end.

(** ** glib's GQueue *)

Module GQueue.

(** A link is named by its place in the queue's history. *)
Definition link := nat.

(** The links ever pushed, in order; [None] where one was deleted. *)
Abbreviation GQueue A := (list (option A)).

Section Links.
Context {A : Type}.

(** The data of the links that are in the queue, head first. *)
Definition elements (q : GQueue A) : list A := omap id q.

Definition g_queue_push_tail (q : GQueue A) (x : A) : GQueue A := q ++ [Some x].

Definition g_queue_delete_link (q : GQueue A) (l : link) : GQueue A :=
  <[l := None]> q.

(** [l->data]; nothing for a link that is not in the queue. *)
Definition g_list_data (q : GQueue A) (l : link) : option A := mjoin (q !! l).

Section Scan.
Variable hit : A -> bool.

Definition hit_slot (s : option A) : bool :=
  match s with
  | Some a => hit a
  | None => false
  end.

(** [for (; l; l = g_list_next(l)) if (hit (l->data)) return l;] over the
    links [slots], the first of which is link [i]. *)
Fixpoint scan_forward (slots : list (option A)) (i : link) : option link :=
  match slots with
  | [] => None
  | s :: rest => if hit_slot s then Some i else scan_forward rest (S i)
  end.

(** The same from the tail by [g_list_previous]; [rslots] are the links from
    the one to start at back to the head. *)
Fixpoint scan_backward (rslots : list (option A)) : option link :=
  match rslots with
  | [] => None
  | s :: rest => if hit_slot s then Some (length rest) else scan_backward rest
  end.

End Scan.
End Links.

End GQueue.
Import GQueue.

(** ** http_headers.c *)

Definition GString := list gchar.

(** [g_string_append_len] and [g_string_truncate (s, 0)]. *)
Definition g_string_append_len (s val : GString) : GString := s ++ val.
Definition g_string_truncate_0 (s : GString) : GString := [].

Record http_header := mk_http_header {
  keylen : nat;      (* length of "headername" in data *)
  data : GString;    (* "headername: value" *)
}.

Record http_headers := mk_http_headers {
  refcount : Z;
  entries : GQueue http_header;
}.

Definition set_entries (headers : http_headers) (q : GQueue http_header) :=
  {| refcount := refcount headers; entries := q |}.

Definition set_refcount (headers : http_headers) (n : Z) :=
  {| refcount := n; entries := entries headers |}.

Definition _http_header_new (key val : list gchar) : http_header :=
  {| keylen := length key;
     data := g_string_append_len
               (g_string_append_len (g_string_append_len [] key) (CONST_STR_LEN ": "))
               val |}.

(** [&h->data->str[h->keylen + 2]], the expression [http_header_is] and
    [http_header_get_fast] spell out and the macros [HEADER_VALUE] and
    [HEADER_VALUE_LEN] stand for: the bytes of the buffer from that place on.
    The place lies outside the buffer when the data is shorter than that. *)
Definition HEADER_VALUE (h : http_header) : option (list gchar) :=
  if decide (keylen h + 2 <= length (data h))%nat
  then Some (drop (keylen h + 2) (data h))
  else None.

(** The header's name: the first [keylen] bytes of the buffer. *)
Definition header_name (h : http_header) : list gchar := take (keylen h) (data h).

(** The stored headers, in order. *)
Definition stored (headers : http_headers) : list http_header :=
  elements (entries headers).

(** *** Typed pointers

    A [GList*] is a link. An [http_header*] is an address; the only
    [http_header] objects are those the [data] fields of the links point to.
    A cast leaves the address as it is. *)
Inductive pointer :=
| AtLink (l : link)     (* the address of link [l] itself *)
| AtData (l : link).    (* the address in [l->data] *)

(** Reading and writing [*h] for [h : http_header*]: there is an
    [http_header] at the address only if it is the data of a link in the
    queue; any other access is undefined. *)
Definition load_header (headers : http_headers) (h : pointer) : option http_header :=
  match h with
  | AtData l => g_list_data (entries headers) l
  | AtLink _ => None
  end.

Definition store_header (headers : http_headers) (h : pointer) (v : http_header)
  : option http_headers :=
  match h with
  | AtData l =>
      match g_list_data (entries headers) l with
      | Some _ => Some (set_entries headers (<[l := Some v]> (entries headers)))
      | None => None
      end
  | AtLink _ => None
  end.

Definition http_headers_reset (headers : http_headers) : http_headers :=
  set_entries headers [].

(** just insert normal header, allow duplicates *)
Definition http_header_insert (headers : http_headers) (key val : list gchar)
  : http_headers :=
  let h := _http_header_new key val in
  set_entries headers (g_queue_push_tail (entries headers) h).

(** [h->keylen == keylen && 0 == g_ascii_strncasecmp(key, h->data->str, keylen)] *)
Definition key_hit (key : list gchar) (h : http_header) : bool :=
  (keylen h =? length key)%nat
  && (g_ascii_strncasecmp key (data h) (length key) =? 0).

Definition http_header_find_first (headers : http_headers) (key : list gchar)
  : option link :=
  scan_forward (key_hit key) (entries headers) O.

(** The list is walked through the [next] fields, which live in the queue.
    The cursor [l] is a link of the queue: C reads [l->next], which is freed
    memory for a deleted link, and the function stands for the C one only at
    links that carry a header. *)
Definition http_header_find_next (headers : http_headers) (l : link)
  (key : list gchar) : option link :=
  scan_forward (key_hit key) (drop (S l) (entries headers)) (S l).

Definition http_header_find_last (headers : http_headers) (key : list gchar)
  : option link :=
  scan_backward (key_hit key) (rev (entries headers)).

(** If header does not exist, just insert normal header. If it exists,
    append (", %s", value) to the last inserted one.
    The source has [h = (http_header* ) l]: the link itself, not [l->data]. *)
Definition http_header_append (headers : http_headers) (key val : list gchar)
  : option http_headers :=
  match http_header_find_last headers key with
  | None => Some (http_header_insert headers key val)
  | Some l =>
      let h := AtLink l in
      match load_header headers h with
      | None => None
      | Some hv =>
          let d := g_string_append_len (data hv) (CONST_STR_LEN ", ") in
          let d := g_string_append_len d val in
          store_header headers h {| keylen := keylen hv; data := d |}
      end
  end.

(** If header does not exist, just insert normal header. If it exists,
    overwrite the last occurrence.
    The source has [h = (http_header* ) l] here as well. *)
Definition http_header_overwrite (headers : http_headers) (key val : list gchar)
  : option http_headers :=
  match http_header_find_last headers key with
  | None => Some (http_header_insert headers key val)
  | Some l =>
      let h := AtLink l in
      match load_header headers h with
      | None => None
      | Some hv =>
          let d := g_string_truncate_0 (data hv) in
          let d := g_string_append_len d key in
          let d := g_string_append_len d (CONST_STR_LEN ": ") in
          let d := g_string_append_len d val in
          store_header headers h {| keylen := keylen hv; data := d |}
      end
  end.

(** [l] is a link of the queue: C frees [l->data] and the link, a second
    time if the link was deleted before, and the function stands for the C
    one only at links that carry a header. *)
Definition http_header_remove_link (headers : http_headers) (l : link)
  : http_headers :=
  set_entries headers (g_queue_delete_link (entries headers) l).

(** [if (lp) { http_header_remove_link(headers, lp); res = TRUE; lp = NULL; }],
    which [http_header_remove] has in its loop and after it. *)
Definition remove_held (headers : http_headers) (lp : option link) (res : bool)
  : http_headers * bool :=
  match lp with
  | Some p => (http_header_remove_link headers p, true)
  | None => (headers, res)
  end.

(** What is left of a walk that stands at [l]: the links after it. *)
Definition links_left (headers : http_headers) (l : option link) : nat :=
  match l with
  | Some l => S (length (entries headers) - l)
  | None => O
  end.

(** A walk that goes on from [l] has fewer links left: the next match lies
    after [l] and inside the queue, and deleting a link moves none. *)
Ltac walk_shrinks :=
  intros; unfold links_left, http_header_find_next;
  repeat match goal with
         | |- context [remove_held ?h ?lp ?r] => destruct lp; simpl
         end;
  unfold g_queue_delete_link; rewrite ?length_insert;
  match goal with
  | |- context [scan_forward ?hit ?slots ?i] =>
      let E := fresh "E" in
      destruct (scan_forward hit slots i) as [?|] eqn:E; [|lia];
      assert (forall (f : http_header -> bool) s j k,
                scan_forward f s j = Some k -> (j <= k < j + length s)%nat)
        as Hbound
        by (clear; intros f s; induction s as [|x r IH]; intros j k;
            cbn [scan_forward length];
            [discriminate
            |destruct (hit_slot f x);
               [intros [= <-]; lia | intros Hk%IH; lia]]);
      apply Hbound in E; rewrite length_drop, ?length_insert in E; lia
  end.

(** The loop of [http_header_remove]:
    [for (l = find_first; l; l = find_next(l)) { remove the held link; lp = l; }]
    and the removal of the last held link after it. *)
Equations http_header_remove_loop (headers : http_headers) (key : list gchar)
  (l lp : option link) (res : bool) : http_headers * bool
  by wf (links_left headers l) lt :=
http_header_remove_loop headers key None lp res := remove_held headers lp res;
http_header_remove_loop headers key (Some l) lp res :=
  http_header_remove_loop (remove_held headers lp res).1 key
    (http_header_find_next (remove_held headers lp res).1 l key)
    (Some l) (remove_held headers lp res).2.
Next Obligation. walk_shrinks. Qed.

Definition http_header_remove (headers : http_headers) (key : list gchar)
  : http_headers * bool :=
  http_header_remove_loop headers key (http_header_find_first headers key) None false.

Definition http_header_lookup (headers : http_headers) (key : list gchar)
  : option pointer :=
  match http_header_find_last headers key with
  | None => None
  | Some l => Some (AtData l)
  end.

(** [a - b] on [gsize]. *)
Definition gsize_sub `{Platform} (a b : nat) : Z :=
  (Z.of_nat a - Z.of_nat b) mod (G_MAXSIZE + 1).

(** The loop of [http_header_is]; there is no result where the C code reads
    outside an object. *)
Equations http_header_is_loop `{Platform} (headers : http_headers)
  (key val : list gchar) (l : option link) : option bool
  by wf (links_left headers l) lt :=
http_header_is_loop headers key val None := Some false;
http_header_is_loop headers key val (Some l) :=
  match load_header headers (AtData l) with
  | None => None
  | Some h =>
      if negb (gsize_sub (length (data h)) (keylen h + 2) =? Z.of_nat (length val))
      then http_header_is_loop headers key val (http_header_find_next headers l key)
      else
        match HEADER_VALUE h with
        | None => None
        | Some v =>
            if g_ascii_strcasecmp v val =? 0 then Some true
            else http_header_is_loop headers key val (http_header_find_next headers l key)
        end
  end.
Next Obligation. walk_shrinks. Qed.
Next Obligation. walk_shrinks. Qed.

Definition http_header_is `{Platform} (headers : http_headers)
  (key val : list gchar) : option bool :=
  http_header_is_loop headers key val (http_header_find_first headers key).

(** *** The heap of collections and the reference count *)

Abbreviation addr := nat.

(** An address holds a live collection, or one that was freed. *)
Abbreviation heap := (list (option http_headers)).

Definition g_slice_new0 (hp : heap) (v : http_headers) : heap * addr :=
  (hp ++ [Some v], length hp).

Definition http_headers_new (hp : heap) : heap * addr :=
  g_slice_new0 hp {| refcount := 1; entries := [] |}.

(** [gint] arithmetic: an increment wraps around; a decrement of a count
    that is positive does not. *)
Definition gint_wrap (x : Z) : Z := (x + 2 ^ 31) mod 2 ^ 32 - 2 ^ 31.

(** A failed [assert] and an access to freed memory both leave no result. *)
Definition http_headers_acquire (hp : heap) (headers : addr) : option heap :=
  match hp !! headers with
  | Some (Some hs) =>
      if decide (0 < refcount hs)
      then Some (<[headers := Some (set_refcount hs (gint_wrap (refcount hs + 1)))]> hp)
      else None
  | _ => None
  end.

Definition http_headers_release (hp : heap) (headers : option addr) : option heap :=
  match headers with
  | None => Some hp
  | Some a =>
      match hp !! a with
      | Some (Some hs) =>
          if decide (0 < refcount hs)
          then
            let n := refcount hs - 1 in
            if decide (n = 0) then Some (<[a := None]> hp)
            else Some (<[a := Some (set_refcount hs n)]> hp)
          else None
      | _ => None
      end
  end.

Definition http_headers_try_reset (hp : heap) (headers : addr)
  : option (heap * addr) :=
  match hp !! headers with
  | Some (Some hs) =>
      if decide (0 < refcount hs)
      then
        let n := refcount hs - 1 in
        if decide (n = 0)
        then
          let hs := http_headers_reset (set_refcount hs n) in
          Some (<[headers := Some (set_refcount hs 1)]> hp, headers)
        else
          Some (http_headers_new (<[headers := Some (set_refcount hs n)]> hp))
      else None
  | _ => None
  end.

(** ** request.c *)

(** The methods the validator tells apart; every other member of the
    enumeration takes the [default] branch of its [switch]. *)
Inductive http_method_t :=
| HTTP_METHOD_UNSET
| HTTP_METHOD_GET
| HTTP_METHOD_POST
| HTTP_METHOD_HEAD
| HTTP_METHOD_OPTIONS
| HTTP_METHOD_OTHER.

Inductive http_version_t :=
| HTTP_VERSION_UNSET
| HTTP_VERSION_1_0
| HTTP_VERSION_1_1.

Record request_uri := mk_request_uri {
  raw : GString;
  scheme : GString;
  authority : GString;
  path : GString;
  query : GString;
  host : GString;
}.

(** The parser context of the tokenizer is left out: nothing here reads it. *)
Record request := mk_request {
  http_method : http_method_t;
  http_method_str : GString;
  http_version : http_version_t;
  uri : request_uri;
  headers : addr;
  content_length : Z;
}.

Record connection := mk_connection {
  keep_alive : bool;
  con_request : request;            (* [con->request] *)
  response_http_status : Z;         (* [con->response.http_status] *)
  expect_100_cont : bool;
}.

Definition set_uri (req : request) (u : request_uri) : request :=
  {| http_method := http_method req; http_method_str := http_method_str req;
     http_version := http_version req; uri := u; headers := headers req;
     content_length := content_length req |}.

Definition set_content_length (req : request) (n : Z) : request :=
  {| http_method := http_method req; http_method_str := http_method_str req;
     http_version := http_version req; uri := uri req; headers := headers req;
     content_length := n |}.

Definition set_authority (u : request_uri) (s : GString) : request_uri :=
  {| raw := raw u; scheme := scheme u; authority := s; path := path u;
     query := query u; host := host u |}.

Definition set_path (u : request_uri) (s : GString) : request_uri :=
  {| raw := raw u; scheme := scheme u; authority := authority u; path := s;
     query := query u; host := host u |}.

Definition set_query (u : request_uri) (s : GString) : request_uri :=
  {| raw := raw u; scheme := scheme u; authority := authority u; path := path u;
     query := s; host := host u |}.

Definition set_keep_alive (con : connection) (b : bool) : connection :=
  {| keep_alive := b; con_request := con_request con;
     response_http_status := response_http_status con;
     expect_100_cont := expect_100_cont con |}.

Definition set_http_status (con : connection) (s : Z) : connection :=
  {| keep_alive := keep_alive con; con_request := con_request con;
     response_http_status := s; expect_100_cont := expect_100_cont con |}.

Definition set_expect_100_cont (con : connection) (b : bool) : connection :=
  {| keep_alive := keep_alive con; con_request := con_request con;
     response_http_status := response_http_status con; expect_100_cont := b |}.

Definition set_request (con : connection) (req : request) : connection :=
  {| keep_alive := keep_alive con; con_request := req;
     response_http_status := response_http_status con;
     expect_100_cont := expect_100_cont con |}.

(** The collaborators of request.c that live in other files: each works on
    the object it is handed and says whether it succeeded. *)
Class Collaborators := {
  parse_hostname : request_uri -> bool * request_uri;
  parse_raw_url : request_uri -> bool * request_uri;
  url_decode : GString -> GString;
  path_simplify : GString -> GString;
  connection_handle_direct : connection -> connection;
}.

Definition request_init (hp : heap) : heap * request :=
  let '(hp1, hs) := http_headers_new hp in
  (hp1,
   {| http_method := HTTP_METHOD_UNSET;
      http_method_str := [];
      http_version := HTTP_VERSION_UNSET;
      uri := {| raw := []; scheme := []; authority := []; path := [];
                query := []; host := [] |};
      headers := hs;
      content_length := -1 |}).

Definition request_reset (hp : heap) (req : request) : option (heap * request) :=
  let u := uri req in
  match http_headers_try_reset hp (headers req) with
  | None => None
  | Some (hp1, hs) =>
      Some (hp1,
            {| http_method := HTTP_METHOD_UNSET;
               http_method_str := g_string_truncate_0 (http_method_str req);
               http_version := HTTP_VERSION_UNSET;
               uri := {| raw := g_string_truncate_0 (raw u);
                         scheme := g_string_truncate_0 (scheme u);
                         authority := g_string_truncate_0 (authority u);
                         path := g_string_truncate_0 (path u);
                         query := g_string_truncate_0 (query u);
                         host := g_string_truncate_0 (host u) |};
               headers := hs;
               content_length := -1 |})
  end.

(** How [request_validate_header] ends: by falling off its end, by
    [bad_request (con, status); return;], or in undefined behaviour. *)
Inductive outcome :=
| Accepted (con : connection)
| Rejected (status : Z) (con : connection)
| Fault.

(** How the loop over the Expect headers ends. *)
Inductive expect_exit :=
| ExpectDone (expect_100_cont : bool)
| ExpectUnsupported
| ExpectFault.

Section Validator.
Context `{Platform} `{Collaborators}.

(** closes connection after response *)
Definition bad_request (con : connection) (status : Z) : connection :=
  let con := set_keep_alive con false in
  let con := set_http_status con status in
  connection_handle_direct con.

Definition request_parse_url (con : connection) : bool * connection :=
  let req := con_request con in
  let u := set_query (uri req) (g_string_truncate_0 (query (uri req))) in
  let u := set_path u (g_string_truncate_0 (path u)) in
  let '(ok, u) := parse_raw_url u in
  if negb ok then (false, set_request con (set_uri req u))
  else
    (* "*" only allowed for method OPTIONS *)
    if (strcmp (path u) (CONST_STR_LEN "*") =? 0)
       && negb (if http_method req is HTTP_METHOD_OPTIONS then true else false)
    then (false, set_request con (set_uri req u))
    else
      let u := set_path u (url_decode (path u)) in
      let u := set_path u (path_simplify (path u)) in
      (true, set_request con (set_uri req u)).

(** [errno] as the validator finds it, and the collection [req->headers]
    points to. *)
Variable errno : Z.
Variable hs : http_headers.

Definition reject (con : connection) (status : Z) : outcome :=
  Rejected status (bad_request con status).

(** [switch (req->http_version)] *)
Definition check_version (con : connection) : outcome :=
  match http_version (con_request con) with
  | HTTP_VERSION_1_0 =>
      match http_header_is hs (CONST_STR_LEN "connection") (CONST_STR_LEN "keep-alive") with
      | None => Fault
      | Some b => Accepted (if negb b then set_keep_alive con false else con)
      end
  | HTTP_VERSION_1_1 =>
      match http_header_is hs (CONST_STR_LEN "connection") (CONST_STR_LEN "close") with
      | None => Fault
      | Some b => Accepted (if b then set_keep_alive con false else con)
      end
  | HTTP_VERSION_UNSET => reject con 505
  end.

(** [if (req->uri.raw->len == 0)] *)
Definition check_raw_uri (con : connection) : outcome :=
  if (length (raw (uri (con_request con))) =? 0)%nat
  then reject con 400
  else Accepted con.

(** get hostname *)
Definition get_hostname (con : connection) : outcome :=
  let req := con_request con in
  let l := http_header_find_first hs (CONST_STR_LEN "host") in
  if match l with
     | Some l' => bool_decide (is_Some (http_header_find_next hs l' (CONST_STR_LEN "host")))
     | None => false
     end
  then (* more than one "host" header *) reject con 400
  else
    match l with
    | None => Fault                      (* [l->data] with [l] NULL *)
    | Some l' =>
        match load_header hs (AtData l') with
        | None => Fault
        | Some hh =>
            match HEADER_VALUE hh with
            | None => Fault
            | Some v =>
                let u := set_authority (uri req)
                           (g_string_append_len (authority (uri req)) v) in
                let '(ok, u) := parse_hostname u in
                let con := set_request con (set_uri req u) in
                if negb ok then reject con 400 else Accepted con
            end
        end
    end.

(** Need hostname in HTTP/1.1 *)
Definition need_hostname (con : connection) : outcome :=
  let req := con_request con in
  if (length (host (uri req)) =? 0)%nat
     && (if http_version req is HTTP_VERSION_1_1 then true else false)
  then reject con 400
  else Accepted con.

(** may override hostname *)
Definition may_override_hostname (con : connection) : outcome :=
  let '(ok, con) := request_parse_url con in
  if negb ok then reject con 400 else Accepted con.

(** content-length *)
Definition content_length_header (con : connection) : outcome :=
  match http_header_lookup hs (CONST_STR_LEN "content-length") with
  | None => Accepted con
  | Some hh =>
      match load_header hs hh with
      | None => Fault
      | Some hv =>
          match HEADER_VALUE hv with
          | None => Fault
          | Some val =>
              let '(r, err, errno) := str_to_off_t errno val in
              if negb (is_nul (peek err)) then reject con 400
              else if r <? 0 then reject con 400
              else if ((r =? STR_OFF_T_MIN) || (r =? STR_OFF_T_MAX))
                      && (errno =? ERANGE)
              then reject con 413
              else Accepted (set_request con (set_content_length (con_request con) r))
          end
      end
  end.

(** The loop over the Expect headers:
    [for ( ; l ; l = http_header_find_next(l, "expect")) ...] *)
Equations expect_loop (l : option link) (expect_100_cont : bool) : expect_exit
  by wf (links_left hs l) lt :=
expect_loop None expect_100_cont := ExpectDone expect_100_cont;
expect_loop (Some l) expect_100_cont :=
  match load_header hs (AtData l) with
  | None => ExpectFault
  | Some hh =>
      match HEADER_VALUE hh with
      | None => ExpectFault
      | Some v =>
          if strcasecmp v (CONST_STR_LEN "100-continue") =? 0
          then expect_loop (http_header_find_next hs l (CONST_STR_LEN "expect")) true
          else (* we only support 100-continue *) ExpectUnsupported
      end
  end.
Next Obligation. walk_shrinks. Qed.

(** Expect: 100-continue *)
Definition expect_100_continue (con : connection) : outcome :=
  match http_header_find_first hs (CONST_STR_LEN "expect") with
  | None => Accepted con
  | Some l =>
      match expect_loop (Some l) false with
      | ExpectFault => Fault
      | ExpectUnsupported => reject con 417
      | ExpectDone expect_100_cont =>
          if expect_100_cont
             && (if http_version (con_request con) is HTTP_VERSION_1_0 then true else false)
          then (* only HTTP/1.1 clients can send us this header *) reject con 417
          else Accepted (set_expect_100_cont con expect_100_cont)
      end
  end.

(** [switch(con->request.http_method)] *)
Definition method_policy (con : connection) : outcome :=
  match http_method (con_request con) with
  | HTTP_METHOD_GET
  | HTTP_METHOD_HEAD =>
      (* content-length is forbidden for those *)
      if 0 <? content_length (con_request con) then reject con 400
      else Accepted (set_request con (set_content_length (con_request con) 0))
  | HTTP_METHOD_POST =>
      (* content-length is required for them *)
      if content_length (con_request con) =? -1 then reject con 411
      else Accepted con
  | _ => (* the may have a content-length *) Accepted con
  end.

(** The checks of [request_validate_header], in the order of the source. *)
Definition checks : list (connection -> outcome) :=
  [ check_version; check_raw_uri; get_hostname; need_hostname;
    may_override_hostname; content_length_header; expect_100_continue;
    method_policy ].

(** Each check either returns, or goes on to the next with the connection as
    it left it. *)
Fixpoint run (cs : list (connection -> outcome)) (con : connection) : outcome :=
  match cs with
  | [] => Accepted con
  | c :: rest =>
      match c con with
      | Accepted con1 => run rest con1
      | r => r
      end
  end.

End Validator.

(** [request_validate_header (con)]: [req->headers] is read from the heap. *)
Definition request_validate_header `{Platform} `{Collaborators}
  (errno : Z) (hp : heap) (con : connection) : outcome :=
  match hp !! headers (con_request con) with
  | Some (Some hs) => run (checks errno hs) con
  | _ => Fault
  end.

(** ** The notions of the specification *)

(** A search name matches a header: the same length as the header's name
    and equal to it up to the case of ASCII letters. *)
Definition name_matches (key : list gchar) (h : http_header) : bool :=
  (length key =? keylen h)%nat && ascii_caseless_eq key (header_name h).

(** The header that link [l] of the collection carries. *)
Definition header_at (headers : http_headers) (l : link) : option http_header :=
  g_list_data (entries headers) l.

(** Link [l] is a link of the collection: pushed and not deleted. *)
Definition live (headers : http_headers) (l : link) : Prop :=
  is_Some (header_at headers l).

(** Link [l] carries a header that the search name matches. *)
Definition matches_at (key : list gchar) (headers : http_headers) (l : link) : Prop :=
  exists h, header_at headers l = Some h /\ name_matches key h = true.

(** The state [request_init] sets up, as far as it can be observed: method
    and version unset, the method string and the six strings of the URI
    empty, no content length, and a collection of its own without entries. *)
Definition initial_state (hp : heap) (req : request) : Prop :=
  http_method req = HTTP_METHOD_UNSET
  /\ http_version req = HTTP_VERSION_UNSET
  /\ http_method_str req = []
  /\ raw (uri req) = []
  /\ scheme (uri req) = []
  /\ authority (uri req) = []
  /\ path (uri req) = []
  /\ query (uri req) = []
  /\ host (uri req) = []
  /\ content_length req = -1
  /\ hp !! headers req = Some (Some {| refcount := 1; entries := [] |}).

(** The value of a header: what follows the name and the two bytes ": ". *)
Definition header_value (h : http_header) : list gchar :=
  drop (keylen h + 2) (data h).

(** A header as [_http_header_new] builds it from text: the buffer holds
    the name, ": " and the value, and no NUL byte. *)
Definition header_wf (h : http_header) : Prop :=
  (keylen h + 2 <= length (data h))%nat /\ nul_free (data h).

(** The first [k] checks of the validator pass on [con], whose collection is
    [hs], and leave the connection [con_k]. *)
Definition reaches `{Platform} `{Collaborators} (errno : Z) (hp : heap)
  (con : connection) (k : nat) (hs : http_headers) (con_k : connection) : Prop :=
  hp !! headers (con_request con) = Some (Some hs)
  /\ run (take k (checks errno hs)) con = Accepted con_k.

(** The value of the header is "100-continue", up to the case of letters. *)
Definition expects_100_continue (h : http_header) : bool :=
  ascii_caseless_eq (header_value h) (CONST_STR_LEN "100-continue").

(** The Expect headers of a collection, in order. *)
Definition expect_headers (headers : http_headers) : list http_header :=
  filter (fun h => name_matches (CONST_STR_LEN "expect") h = true) (stored headers).

(** The buffer of the header holds the name, ": " and a value without NUL
    byte. *)
Definition value_is_text (h : http_header) : Prop :=
  (keylen h + 2 <= length (data h))%nat /\ nul_free (header_value h).

(** What [http_header_remove] leaves of a link. *)
Definition without (key : list gchar) (s : option http_header) : option http_header :=
  if hit_slot (key_hit key) s then None else s.

(** ** Sample data: a 64-bit Linux platform, collaborators that accept
    everything, and a few collections and requests *)

Module Sample.

Definition lp64 : Platform :=
  {| G_MAXSIZE := 2 ^ 64 - 1;
     STR_OFF_T_MIN := - 2 ^ 63;
     STR_OFF_T_MAX := 2 ^ 63 - 1;
     ERANGE := 34 |}.

Definition set_host (u : request_uri) (s : GString) : request_uri :=
  {| raw := raw u; scheme := scheme u; authority := authority u; path := path u;
     query := query u; host := s |}.

Definition lenient : Collaborators :=
  {| parse_hostname := fun u => (true, set_host u (authority u));
     parse_raw_url := fun u => (true, set_path u (raw u));
     url_decode := fun s => s;
     path_simplify := fun s => s;
     connection_handle_direct := fun con => con |}.

Definition no_headers : http_headers := {| refcount := 1; entries := [] |}.

Definition header (key val : string) : list gchar * list gchar :=
  (CONST_STR_LEN key, CONST_STR_LEN val).

(** The collection a tokenizer fills by [http_header_insert]. *)
Definition with_headers (kvs : list (list gchar * list gchar)) : http_headers :=
  foldl (fun hs kv => http_header_insert hs kv.1 kv.2) no_headers kvs.

Definition request_of (m : http_method_t) (v : http_version_t) : request :=
  {| http_method := m;
     http_method_str := [];
     http_version := v;
     uri := {| raw := CONST_STR_LEN "/"; scheme := []; authority := [];
               path := []; query := []; host := [] |};
     headers := O;
     content_length := -1 |}.

Definition connection_of (m : http_method_t) (v : http_version_t) : connection :=
  {| keep_alive := true;
     con_request := request_of m v;
     response_http_status := 0;
     expect_100_cont := false |}.

End Sample.

(** ** http_headers.c: http_header_get_fast *)

(** The loop of [http_header_get_fast]: every header of that name adds its
    value to [dest], after ", " when [dest] is not empty. There is no result
    where the value lies outside the buffer. *)
Equations http_header_get_fast_loop (headers : http_headers) (key : list gchar)
  (l : option link) (dest : GString) : option GString
  by wf (links_left headers l) lt :=
http_header_get_fast_loop headers key None dest := Some dest;
http_header_get_fast_loop headers key (Some l) dest :=
  match load_header headers (AtData l) with
  | None => None
  | Some h =>
      match HEADER_VALUE h with
      | None => None
      | Some v =>
          let dest := if (0 <? length dest)%nat
                      then g_string_append_len dest (CONST_STR_LEN ", ")
                      else dest in
          http_header_get_fast_loop headers key
            (http_header_find_next headers l key) (g_string_append_len dest v)
      end
  end.
Next Obligation. walk_shrinks. Qed.

Definition http_header_get_fast (dest : GString) (headers : http_headers)
  (key : list gchar) : option GString :=
  http_header_get_fast_loop headers key (http_header_find_first headers key)
    (g_string_truncate_0 dest).

(** ** Further notions for the properties below *)

(** The strings [vs] with [sep] between them. *)
Definition join_with (sep : GString) (vs : list GString) : GString :=
  match vs with
  | [] => []
  | v :: rest => v ++ concat (map (fun x => sep ++ x) rest)
  end.

(** The stored headers that the search name matches, in order. *)
Definition named (key : list gchar) (headers : http_headers) : list http_header :=
  filter (fun h => name_matches key h = true) (stored headers).

(** Some header of that name has the value [val], up to the case of letters. *)
Definition some_value_is (headers : http_headers) (key val : list gchar) : bool :=
  existsb (fun h => ascii_caseless_eq (header_value h) val) (named key headers).

(** A well-formed header whose buffer length is a [gsize]. *)
Definition header_fits `{Platform} (h : http_header) : Prop :=
  header_wf h /\ Z.of_nat (length (data h)) <= G_MAXSIZE.

(** The number a string of decimal digits denotes. *)
Definition decimal_value (ds : list gchar) : Z :=
  foldl (fun acc c => acc * 10 + (code c - 48)) 0 ds.

(** The largest [gint]. *)
Definition G_MAXINT : Z := 2 ^ 31 - 1.

(** The statuses [request_validate_header] hands to [bad_request]. *)
Definition rejection_statuses : list Z := [505; 400; 413; 417; 411].


(** The strings after the empty ones at the head of the list. *)
Fixpoint skip_empty (vs : list GString) : list GString :=
  match vs with
  | [] :: rest => skip_empty rest
  | _ => vs
  end.


(** * Properties *)

(** ** Characters and comparisons *)

Lemma code_range c : 0 <= code c < 256.
Proof.
  unfold code. pose proof (N_ascii_bounded c). lia.
Qed.

Lemma code_ascii_of_N n : 0 <= n < 256 -> code (ascii_of_N (Z.to_N n)) = n.
Proof.
  intros Hn. unfold code. rewrite N_ascii_embedding by lia. lia.
Qed.

Lemma code_TOLOWER c :
  code (TOLOWER c) = if (65 <=? code c) && (code c <=? 90) then code c + 32 else code c.
Proof.
  unfold TOLOWER. pose proof (code_range c).
  destruct ((65 <=? code c) && (code c <=? 90)) eqn:E; [|done].
  rewrite code_ascii_of_N; lia.
Qed.

Lemma is_nul_TOLOWER c : is_nul (TOLOWER c) = is_nul c.
Proof.
  unfold is_nul. rewrite code_TOLOWER.
  destruct ((65 <=? code c) && (code c <=? 90)) eqn:E; [|done]. lia.
Qed.

(** Against a name without NUL, the counted comparison of glib is the
    comparison of the specification on the first bytes of the buffer. *)
Lemma g_ascii_strncasecmp_caseless key d :
  nul_free key ->
  (g_ascii_strncasecmp key d (length key) =? 0)
  = ascii_caseless_eq key (take (length key) d).
Proof.
  intros Hkey. revert d. induction Hkey as [|c key Hc _ IH]; intros d; [done|].
  cbn [length g_ascii_strncasecmp peek tail].
  rewrite Hc. cbn [orb].
  assert (code c <> 0) as Hc0 by (unfold is_nul in Hc; lia).
  destruct d as [|x d]; cbn [peek tail take ascii_caseless_eq].
  { change (is_nul NUL) with true. change (code NUL) with 0.
    apply Z.eqb_neq. lia. }
  destruct (is_nul x) eqn:Hx.
  - assert (code x = 0) as Hx0 by (unfold is_nul in Hx; lia).
    pose proof (is_nul_TOLOWER c) as Hlc. pose proof (is_nul_TOLOWER x) as Hlx.
    unfold is_nul in Hlc, Hlx.
    assert ((code (TOLOWER c) =? code (TOLOWER x)) = false) as -> by lia.
    cbn [andb]. apply Z.eqb_neq. lia.
  - destruct (code (TOLOWER c) =? code (TOLOWER x)) eqn:E; cbn [negb andb].
    + apply IH.
    + apply Z.eqb_neq. lia.
Qed.

(** Between two strings without NUL, [g_ascii_strcasecmp] returning 0 is the
    comparison of the specification. *)
Lemma g_ascii_strcasecmp_caseless a b :
  nul_free a -> nul_free b ->
  (g_ascii_strcasecmp a b =? 0) = ascii_caseless_eq a b.
Proof.
  intros Ha. revert b. induction Ha as [|c a Hc _ IH]; intros b Hb.
  - destruct Hb as [|y b Hy _]; cbn [g_ascii_strcasecmp peek ascii_caseless_eq].
    + reflexivity.
    + change (code NUL) with 0. unfold is_nul in Hy. apply Z.eqb_neq. lia.
  - cbn [g_ascii_strcasecmp]. rewrite Hc. cbn [orb].
    assert (code c <> 0) as Hc0 by (unfold is_nul in Hc; lia).
    destruct Hb as [|y b Hy Hb]; cbn [peek tail ascii_caseless_eq].
    + change (is_nul NUL) with true. change (code NUL) with 0.
      apply Z.eqb_neq. lia.
    + rewrite Hy.
      destruct (code (TOLOWER c) =? code (TOLOWER y)) eqn:E; cbn [negb andb].
      * by apply IH.
      * apply Z.eqb_neq. lia.
Qed.

Lemma key_hit_name_matches key h :
  nul_free key -> key_hit key h = name_matches key h.
Proof.
  intros Hkey. unfold key_hit, name_matches, header_name.
  rewrite g_ascii_strncasecmp_caseless by done.
  destruct (Nat.eqb_spec (keylen h) (length key)) as [->|Hne].
  - by rewrite Nat.eqb_refl.
  - destruct (Nat.eqb_spec (length key) (keylen h)); [congruence|done].
Qed.

(** ** Walks over a queue *)

Section ScanFacts.
Context {A : Type} (hit : A -> bool).

Lemma scan_forward_bounds slots i l :
  scan_forward hit slots i = Some l -> (i <= l < i + length slots)%nat.
Proof.
  revert i; induction slots as [|s rest IH]; intros i; cbn [scan_forward length];
    [done|].
  destruct (hit_slot hit s); [intros [= <-]; lia|].
  intros Hl%IH. lia.
Qed.

(** A forward walk stops at the first link that hits. *)
Lemma scan_forward_Some slots i l :
  scan_forward hit slots i = Some l <->
  (i <= l)%nat
  /\ hit_slot hit (g_list_data slots (l - i)%nat) = true
  /\ forall j, (j < l - i)%nat -> hit_slot hit (g_list_data slots j) = false.
Proof.
  unfold g_list_data.
  revert i; induction slots as [|s rest IH]; intros i; cbn [scan_forward].
  - split; [done|]. intros (_ & Hhit & _). by rewrite lookup_nil in Hhit.
  - destruct (hit_slot hit s) eqn:Hs.
    + split.
      * intros [= <-]. rewrite Nat.sub_diag. cbn. split_and!; [lia|done|lia].
      * intros (Hle & Hhit & Hbefore).
        destruct (decide (l = i)) as [->|Hne]; [done|].
        specialize (Hbefore O ltac:(lia)). cbn in Hbefore. congruence.
    + rewrite IH. split.
      * intros (Hle & Hhit & Hbefore).
        replace (l - i)%nat with (S (l - S i)) by lia. cbn.
        split_and!; [lia|done|].
        intros [|j] Hj; cbn; [done|]. apply Hbefore. lia.
      * intros (Hle & Hhit & Hbefore).
        destruct (decide (l = i)) as [->|Hne].
        { rewrite Nat.sub_diag in Hhit. cbn in Hhit. congruence. }
        replace (l - i)%nat with (S (l - S i)) in Hhit, Hbefore by lia.
        cbn in Hhit. split_and!; [lia|done|].
        intros j Hj. apply (Hbefore (S j)). lia.
Qed.

Lemma scan_forward_None slots i :
  scan_forward hit slots i = None <->
  forall j, hit_slot hit (g_list_data slots j) = false.
Proof.
  unfold g_list_data.
  revert i; induction slots as [|s rest IH]; intros i; cbn [scan_forward].
  - split; [|done]. intros _ j. by rewrite lookup_nil.
  - destruct (hit_slot hit s) eqn:Hs.
    + split; [done|]. intros Hall. specialize (Hall O). cbn in Hall. congruence.
    + rewrite IH. split.
      * intros Hall [|j]; cbn; [done|apply Hall].
      * intros Hall j. apply (Hall (S j)).
Qed.

(** A backward walk from the tail stops at the last link that hits. *)
Lemma scan_backward_Some q l :
  scan_backward hit (rev q) = Some l <->
  hit_slot hit (g_list_data q l) = true
  /\ forall j, (l < j)%nat -> hit_slot hit (g_list_data q j) = false.
Proof.
  unfold g_list_data.
  induction q as [|s q IH] using rev_ind.
  - cbn. split; [done|]. intros [Hhit _]. by rewrite lookup_nil in Hhit.
  - rewrite rev_app_distr. cbn [rev app scan_backward].
    rewrite length_rev.
    destruct (hit_slot hit s) eqn:Hs.
    + split.
      * intros [= <-]. rewrite list_lookup_middle by done. cbn.
        split; [done|]. intros j Hj.
        rewrite lookup_ge_None_2; [done|rewrite length_app; cbn; lia].
      * intros [Hhit Hafter].
        destruct (Nat.lt_trichotomy l (length q)) as [Hlt|[->|Hgt]]; [|done|].
        -- specialize (Hafter (length q) Hlt).
           rewrite list_lookup_middle in Hafter by done. cbn in Hafter. congruence.
        -- rewrite lookup_ge_None_2 in Hhit; [done|rewrite length_app; cbn; lia].
    + rewrite IH. split.
      * intros [Hhit Hafter].
        assert (l < length q)%nat as Hl.
        { destruct (decide (l < length q)%nat); [done|].
          rewrite lookup_ge_None_2 in Hhit; [done|lia]. }
        rewrite lookup_app_l by done. split; [done|].
        intros j Hj. destruct (Nat.lt_trichotomy j (length q)) as [Hlt|[->|Hgt]].
        -- rewrite lookup_app_l by done. by apply Hafter.
        -- rewrite list_lookup_middle by done. done.
        -- rewrite lookup_ge_None_2; [done|rewrite length_app; cbn; lia].
      * intros [Hhit Hafter].
        assert (l < length q)%nat as Hl.
        { destruct (Nat.lt_trichotomy l (length q)) as [Hlt|[->|Hgt]]; [done| |].
          - rewrite list_lookup_middle in Hhit by done. cbn in Hhit. congruence.
          - rewrite lookup_ge_None_2 in Hhit; [done|rewrite length_app; cbn; lia]. }
        rewrite lookup_app_l in Hhit by done. split; [done|].
        intros j Hj. specialize (Hafter j Hj).
        destruct (decide (j < length q)%nat).
        -- by rewrite lookup_app_l in Hafter.
        -- rewrite lookup_ge_None_2; [done|lia].
Qed.

Lemma scan_backward_None q :
  scan_backward hit (rev q) = None <->
  forall j, hit_slot hit (g_list_data q j) = false.
Proof.
  unfold g_list_data.
  induction q as [|s q IH] using rev_ind.
  - cbn. split; [|done]. intros _ j. by rewrite lookup_nil.
  - rewrite rev_app_distr. cbn [rev app scan_backward].
    destruct (hit_slot hit s) eqn:Hs.
    + split; [done|]. intros Hall. specialize (Hall (length q)).
      rewrite list_lookup_middle in Hall by done. cbn in Hall. congruence.
    + rewrite IH. split.
      * intros Hall j. destruct (Nat.lt_trichotomy j (length q)) as [Hlt|[->|Hgt]].
        -- rewrite lookup_app_l by done. apply Hall.
        -- rewrite list_lookup_middle by done. done.
        -- rewrite lookup_ge_None_2; [done|rewrite length_app; cbn; lia].
      * intros Hall j. specialize (Hall j).
        destruct (decide (j < length q)%nat).
        -- by rewrite lookup_app_l in Hall.
        -- rewrite lookup_ge_None_2; [done|lia].
Qed.

End ScanFacts.

(** ** Headers as http_header_insert stores them *)

Lemma header_name_new key val : header_name (_http_header_new key val) = key.
Proof.
  unfold header_name, _http_header_new, g_string_append_len. cbn [keylen data app].
  by rewrite <- app_assoc, take_app_length.
Qed.

Lemma header_value_new key val : header_value (_http_header_new key val) = val.
Proof.
  unfold header_value, _http_header_new, g_string_append_len. cbn [keylen data app].
  rewrite <- app_assoc. rewrite drop_app_add. reflexivity.
Qed.

Lemma header_wf_new key val :
  nul_free key -> nul_free val -> header_wf (_http_header_new key val).
Proof.
  intros Hkey Hval. unfold header_wf, _http_header_new, g_string_append_len.
  cbn [keylen data app]. split.
  - rewrite !length_app. cbn. lia.
  - apply Forall_app. split; [|done]. apply Forall_app. split; [done|].
    repeat constructor.
Qed.

Lemma elements_push_tail {A} (q : GQueue A) x :
  elements (g_queue_push_tail q x) = elements q ++ [x].
Proof. unfold elements, g_queue_push_tail. by rewrite omap_app. Qed.

(** [http_header_insert] adds the header at the tail and touches nothing
    else. *)
Lemma stored_insert headers key val :
  stored (http_header_insert headers key val)
  = stored headers ++ [_http_header_new key val].
Proof. unfold stored, http_header_insert. cbn [entries set_entries]. apply elements_push_tail. Qed.

(** ** The find functions *)

Lemma hit_at_matches key headers l :
  nul_free key ->
  hit_slot (key_hit key) (g_list_data (entries headers) l) = true
  <-> matches_at key headers l.
Proof.
  intros Hkey. unfold matches_at, header_at.
  destruct (g_list_data (entries headers) l) as [h|]; cbn [hit_slot].
  - rewrite key_hit_name_matches by done. split; [eauto|].
    by intros (h' & [= <-] & Hm).
  - split; [done|]. by intros (h' & [=] & _).
Qed.

Lemma hit_at_no_match key headers l :
  nul_free key ->
  hit_slot (key_hit key) (g_list_data (entries headers) l) = false
  <-> ~ matches_at key headers l.
Proof.
  intros Hkey. rewrite <- hit_at_matches by done.
  destruct (hit_slot _ _); split; congruence.
Qed.

Lemma g_list_data_drop {A} (q : GQueue A) n j :
  g_list_data (drop n q) j = g_list_data q (n + j)%nat.
Proof. unfold g_list_data. by rewrite lookup_drop. Qed.

(** C9, amended. For a search name without NUL byte,
    [http_header_find_first], [http_header_find_next] from a link of the
    collection, and [http_header_find_last] report a link exactly when the
    header it carries has a name of the same length as the search name and
    equal to it up to the case of ASCII letters: the first such link, the
    next such link after the cursor, and the last such link; they report
    nothing exactly when there is no such link. *)
Theorem find_reports_caseless_full_name_match key headers :
  nul_free key ->
  (forall l, http_header_find_first headers key = Some l <->
     matches_at key headers l
     /\ forall l', (l' < l)%nat -> ~ matches_at key headers l')
  /\ (http_header_find_first headers key = None <->
      forall l, ~ matches_at key headers l)
  /\ (forall l0, live headers l0 ->
      forall l, http_header_find_next headers l0 key = Some l <->
        (l0 < l)%nat /\ matches_at key headers l
        /\ forall l', (l0 < l' < l)%nat -> ~ matches_at key headers l')
  /\ (forall l0, live headers l0 ->
      http_header_find_next headers l0 key = None <->
        forall l, (l0 < l)%nat -> ~ matches_at key headers l)
  /\ (forall l, http_header_find_last headers key = Some l <->
        matches_at key headers l
        /\ forall l', (l < l')%nat -> ~ matches_at key headers l')
  /\ (http_header_find_last headers key = None <->
      forall l, ~ matches_at key headers l).
Proof.
  intros Hkey.
  unfold http_header_find_first, http_header_find_next, http_header_find_last.
  split_and!.
  - intros l. rewrite scan_forward_Some, Nat.sub_0_r, hit_at_matches by done.
    split.
    + intros (_ & Hm & Hb). split; [done|]. intros l' Hl'.
      apply hit_at_no_match; [done|]. by apply Hb.
    + intros (Hm & Hb). split_and!; [lia|done|]. intros j Hj.
      apply hit_at_no_match; [done|]. by apply Hb.
  - rewrite scan_forward_None. split; intros Hall l.
    + apply hit_at_no_match; [done|]. apply Hall.
    + apply hit_at_no_match; [done|]. apply Hall.
  - intros l0 _ l. rewrite scan_forward_Some. split.
    + intros (Hle & Hm & Hb). rewrite g_list_data_drop in Hm.
      replace (S l0 + (l - S l0))%nat with l in Hm by lia.
      split_and!; [lia|by apply hit_at_matches|].
      intros l' Hl'. apply hit_at_no_match; [done|].
      specialize (Hb (l' - S l0)%nat ltac:(lia)). rewrite g_list_data_drop in Hb.
      by replace (S l0 + (l' - S l0))%nat with l' in Hb by lia.
    + intros (Hlt & Hm & Hb). split_and!; [lia| |].
      * rewrite g_list_data_drop. replace (S l0 + (l - S l0))%nat with l by lia.
        by apply hit_at_matches.
      * intros j Hj. rewrite g_list_data_drop.
        apply hit_at_no_match; [done|]. apply Hb. lia.
  - intros l0 _. rewrite scan_forward_None. split.
    + intros Hall l Hl. apply hit_at_no_match; [done|].
      specialize (Hall (l - S l0)%nat). rewrite g_list_data_drop in Hall.
      by replace (S l0 + (l - S l0))%nat with l in Hall by lia.
    + intros Hall j. rewrite g_list_data_drop.
      apply hit_at_no_match; [done|]. apply Hall. lia.
  - intros l. rewrite scan_backward_Some, hit_at_matches by done. split.
    + intros (Hm & Hb). split; [done|]. intros l' Hl'.
      apply hit_at_no_match; [done|]. by apply Hb.
    + intros (Hm & Hb). split; [done|]. intros j Hj.
      apply hit_at_no_match; [done|]. by apply Hb.
  - rewrite scan_backward_None. split; intros Hall l.
    + apply hit_at_no_match; [done|]. apply Hall.
    + apply hit_at_no_match; [done|]. apply Hall.
Qed.

(** C9 at a concrete collection: "content-type" finds the header stored as
    "Content-Type", and from that link, which is a link of the collection,
    no further header of the name lies behind it. *)
Lemma find_reports_caseless_full_name_match_witness :
  let hs := Sample.with_headers
              [Sample.header "Content-Type" "text/html"; Sample.header "Host" "h"] in
  nul_free (CONST_STR_LEN "content-type")
  /\ live hs O
  /\ matches_at (CONST_STR_LEN "content-type") hs O
  /\ forall l, (O < l)%nat -> ~ matches_at (CONST_STR_LEN "content-type") hs l.
Proof.
  intros hs.
  assert (nul_free (CONST_STR_LEN "content-type")) as Hkey
    by (repeat constructor).
  assert (live hs O) as Hlive by (eexists; reflexivity).
  split; [exact Hkey|]. split; [exact Hlive|].
  pose proof (find_reports_caseless_full_name_match
                (CONST_STR_LEN "content-type") hs Hkey)
    as (Hfirst & _ & _ & Hnext & _).
  split.
  - apply (Hfirst O). reflexivity.
  - apply (Hnext O Hlive). reflexivity.
Defined.

(** C9 as first stated fails for a search name with a NUL byte: the
    comparison of glib stops there, so the name a, NUL, c finds the header
    named a, NUL, b, which it does not match; [http_header_find_first],
    [http_header_find_next] and [http_header_find_last] all report it. *)
Lemma find_stops_comparing_at_nul :
  let key := ["a"%char; NUL; "c"%char] in
  let name := ["a"%char; NUL; "b"%char] in
  let hs := Sample.with_headers
              [Sample.header "Host" "h"; (name, CONST_STR_LEN "v")] in
  live hs O
  /\ header_at hs 1%nat = Some (_http_header_new name (CONST_STR_LEN "v"))
  /\ length key = length name
  /\ ascii_caseless_eq key name = false
  /\ ~ matches_at key hs 1%nat
  /\ http_header_find_first hs key = Some 1%nat
  /\ http_header_find_next hs O key = Some 1%nat
  /\ http_header_find_last hs key = Some 1%nat.
Proof.
  intros key name hs. split_and!; try reflexivity.
  - by eexists.
  - intros (h & Hat & Hm). injection Hat as <-. discriminate Hm.
Qed.

Example find_content_type_any_case :
  let hs := Sample.with_headers [Sample.header "Content-Type" "text/html"] in
  http_header_find_first hs (CONST_STR_LEN "content-type") = Some O
  /\ http_header_find_first hs (CONST_STR_LEN "CONTENT-TYPE") = Some O
  /\ http_header_find_last hs (CONST_STR_LEN "content-type") = Some O
  /\ http_header_find_last hs (CONST_STR_LEN "CONTENT-TYPE") = Some O.
Proof. repeat split. Qed.

Example find_host_no_prefix :
  let hs := Sample.with_headers [Sample.header "host" "example.org"; Sample.header "host-foo" "x"] in
  http_header_find_first hs (CONST_STR_LEN "ho") = None
  /\ http_header_find_last hs (CONST_STR_LEN "ho") = None
  /\ http_header_find_first hs (CONST_STR_LEN "hostx") = None
  /\ http_header_find_last hs (CONST_STR_LEN "hostx") = None
  /\ http_header_find_next hs O (CONST_STR_LEN "host") = None
  /\ http_header_find_last hs (CONST_STR_LEN "host") = Some O.
Proof. repeat split. Qed.

(** ** http_header_remove *)

Lemma without_no_hit key q :
  (forall j, hit_slot (key_hit key) (g_list_data q j) = false) ->
  map (without key) q = q.
Proof.
  unfold g_list_data. intros Hall. induction q as [|s q IH]; [done|].
  cbn [map]. rewrite IH by (intros j; apply (Hall (S j))).
  specialize (Hall O). cbn in Hall. unfold without.
  destruct s as [h|]; cbn in *; [by rewrite Hall|done].
Qed.

(** A forward walk that stops splits the links it walked over. *)
Lemma scan_forward_split {A} (hit : A -> bool) slots i l :
  scan_forward hit slots i = Some l ->
  exists before a after,
    slots = before ++ Some a :: after
    /\ l = (i + length before)%nat
    /\ hit a = true
    /\ (forall j, hit_slot hit (g_list_data before j) = false).
Proof.
  revert i; induction slots as [|s rest IH]; intros i; cbn [scan_forward]; [done|].
  destruct (hit_slot hit s) eqn:Hs.
  - intros [= <-]. destruct s as [a|]; [|done].
    exists [], a, rest. split_and!; [done|cbn; lia|done|].
    intros j. unfold g_list_data. by rewrite lookup_nil.
  - intros (before & a & after & -> & -> & Ha & Hb)%IH.
    exists (s :: before), a, after. split_and!; [done|cbn; lia|done|].
    intros [|j]; [done|]. apply Hb.
Qed.

Lemma no_hit_app {A} (hit : A -> bool) (q1 q2 : GQueue A) :
  (forall j, hit_slot hit (g_list_data q1 j) = false) ->
  (forall j, hit_slot hit (g_list_data q2 j) = false) ->
  forall j, hit_slot hit (g_list_data (q1 ++ q2) j) = false.
Proof.
  unfold g_list_data. intros H1 H2 j.
  destruct (decide (j < length q1)%nat).
  - rewrite lookup_app_l by done. apply H1.
  - rewrite lookup_app_r by lia. apply H2.
Qed.

Lemma insert_at_length {A} (l1 l2 : list A) x y :
  <[length l1 := x]> (l1 ++ y :: l2) = l1 ++ x :: l2.
Proof. rewrite insert_app_r_alt by lia. by rewrite Nat.sub_diag. Qed.

Lemma drop_past_length {A} (l1 l2 : list A) y :
  drop (S (length l1)) (l1 ++ y :: l2) = l2.
Proof.
  replace (l1 ++ y :: l2) with ((l1 ++ [y]) ++ l2) by (by rewrite <- app_assoc).
  apply drop_app_length'. rewrite length_app. cbn. lia.
Qed.

(** The loop with a link held: the held link and every later match go. *)
Lemma http_header_remove_loop_held key rc n :
  forall before hp after res,
    (length after <= n)%nat ->
    key_hit key hp = true ->
    (forall j, hit_slot (key_hit key) (g_list_data before j) = false) ->
    http_header_remove_loop
      {| refcount := rc; entries := before ++ Some hp :: after |} key
      (scan_forward (key_hit key) after (S (length before)))
      (Some (length before)) res
    = ({| refcount := rc;
          entries := before ++ None :: map (without key) after |}, true).
Proof.
  induction n as [|n IH]; intros before hp after res Hlen Hhp Hbefore.
  - destruct after; [|cbn in Hlen; lia]. cbn [scan_forward map].
    simp http_header_remove_loop.
    cbn [remove_held]. unfold http_header_remove_link, set_entries, g_queue_delete_link.
    cbn [entries refcount]. by rewrite insert_at_length.
  - destruct (scan_forward (key_hit key) after (S (length before))) as [l|] eqn:E.
    + apply scan_forward_split in E as (mid & h & rest & -> & -> & Hh & Hmid).
      simp http_header_remove_loop.
      cbn [remove_held fst snd].
      unfold http_header_remove_link, set_entries, g_queue_delete_link.
      cbn [entries refcount].
      rewrite insert_at_length.
      unfold http_header_find_next. cbn [entries].
      replace (before ++ None :: mid ++ Some h :: rest)
        with ((before ++ None :: mid) ++ Some h :: rest)
        by (by rewrite <- app_assoc).
      assert (length (before ++ None :: mid) = (S (length before) + length mid)%nat)
        as Hl by (rewrite length_app; cbn; lia).
      rewrite <- Hl. rewrite drop_past_length.
      rewrite IH.
      * rewrite <- app_assoc. cbn [app]. rewrite map_app. cbn [map].
        rewrite (without_no_hit key mid) by done.
        unfold without at 2. cbn [hit_slot]. by rewrite Hh.
      * rewrite length_app in Hlen. cbn in Hlen. lia.
      * done.
      * apply no_hit_app; [done|]. intros [|j]; [done|]. apply Hmid.
    + simp http_header_remove_loop.
      cbn [remove_held]. unfold http_header_remove_link, set_entries, g_queue_delete_link.
      cbn [entries refcount]. rewrite insert_at_length.
      rewrite without_no_hit; [done|]. apply (proj1 (scan_forward_None _ _ _) E).
Qed.

Lemma elements_cons_Some {A} (x : A) (q : GQueue A) :
  elements (Some x :: q) = x :: elements q.
Proof. reflexivity. Qed.

Lemma elements_cons_None {A} (q : GQueue A) :
  elements (None :: q) = elements q.
Proof. reflexivity. Qed.

Lemma elements_without key (q : GQueue http_header) :
  elements (map (without key) q)
  = filter (fun h => key_hit key h = false) (elements q).
Proof.
  induction q as [|[h|] q IH]; cbn [map]; [done| |].
  - unfold without at 1. cbn [hit_slot].
    rewrite elements_cons_Some, filter_cons.
    destruct (key_hit key h) eqn:Hh.
    + rewrite decide_False by done. by rewrite elements_cons_None.
    + rewrite decide_True by done. by rewrite elements_cons_Some, IH.
  - unfold without at 1. cbn [hit_slot]. by rewrite !elements_cons_None.
Qed.

Lemma hit_elements key (q : GQueue http_header) :
  existsb (hit_slot (key_hit key)) q = true
  <-> exists h, h ∈ elements q /\ key_hit key h = true.
Proof.
  unfold elements. induction q as [|[h|] q IH]; cbn [existsb omap hit_slot].
  - split; [done|]. intros (h & Hin & _). by apply elem_of_nil in Hin.
  - cbn. rewrite orb_true_iff, IH. split.
    + intros [Hh|(h' & Hin & Hh')]; [exists h|exists h']; split;
        [apply list_elem_of_here|done|by apply list_elem_of_further|done].
    + intros (h' & [->|Hin]%elem_of_cons & Hh'); [by left|right; eauto].
  - cbn. apply IH.
Qed.

Lemma without_hits_nothing key (q : GQueue http_header) j :
  hit_slot (key_hit key) (g_list_data (map (without key) q) j) = false.
Proof.
  unfold g_list_data.
  revert j; induction q as [|s q IH]; intros [|j]; cbn [map]; [done|done| |apply IH].
  change (hit_slot (key_hit key) (without key s) = false).
  unfold without. by destruct (hit_slot (key_hit key) s) eqn:Hs.
Qed.

Lemma existsb_no_hit key (q : GQueue http_header) :
  (forall j, hit_slot (key_hit key) (g_list_data q j) = false) ->
  existsb (hit_slot (key_hit key)) q = false.
Proof.
  unfold g_list_data. intros Hall. induction q as [|s q IH]; [done|].
  cbn [existsb]. rewrite IH by (intros j; apply (Hall (S j))).
  specialize (Hall O). cbn in Hall. by rewrite Hall.
Qed.

Lemma without_hit key h : key_hit key h = true -> without key (Some h) = None.
Proof. intros Hh. unfold without. cbn [hit_slot]. by rewrite Hh. Qed.

(** [http_header_remove] turns every link that matches into a hole and
    reports whether there was one. *)
Lemma http_header_remove_without headers key :
  http_header_remove headers key
  = (set_entries headers (map (without key) (entries headers)),
     existsb (hit_slot (key_hit key)) (entries headers)).
Proof.
  destruct headers as [rc q]. unfold http_header_remove, http_header_find_first.
  cbn [entries].
  destruct (scan_forward (key_hit key) q O) as [l|] eqn:E.
  - apply scan_forward_split in E as (before & h & rest & -> & -> & Hh & Hb).
    simp http_header_remove_loop. cbn [remove_held fst snd plus].
    unfold http_header_find_next. cbn [entries]. rewrite drop_past_length.
    rewrite (http_header_remove_loop_held key rc (length rest)) by done.
    unfold set_entries. cbn [entries refcount].
    rewrite map_app. cbn [map]. rewrite (without_no_hit key before) by done.
    rewrite without_hit by done.
    rewrite existsb_app. cbn [existsb hit_slot]. rewrite Hh.
    by rewrite orb_true_r.
  - simp http_header_remove_loop. cbn [remove_held]. unfold set_entries.
    cbn [entries refcount].
    pose proof (proj1 (scan_forward_None _ _ _) E) as Hall.
    by rewrite without_no_hit, existsb_no_hit.
Qed.

(** C7, amended. For a search name without NUL byte, [http_header_remove]
    deletes every stored header that the name matches (same length, equal up
    to the case of ASCII letters) and keeps the others in their order; it
    returns true exactly when some stored header matched; the reference count
    is untouched; and removing the same name again returns false and leaves
    the collection as it is. *)
Theorem remove_deletes_every_match key headers :
  nul_free key ->
  let r := http_header_remove headers key in
  stored r.1 = filter (fun h => name_matches key h = false) (stored headers)
  /\ refcount r.1 = refcount headers
  /\ (r.2 = true <-> exists h, h ∈ stored headers /\ name_matches key h = true)
  /\ http_header_remove r.1 key = (r.1, false).
Proof.
  intros Hkey r. subst r. rewrite http_header_remove_without.
  cbn [fst snd]. unfold stored, set_entries. cbn [entries refcount].
  split_and!.
  - rewrite elements_without. apply list_filter_iff.
    intros h. by rewrite key_hit_name_matches.
  - done.
  - rewrite hit_elements. split; intros (h & Hin & Hh); exists h;
      (split; [done|]); by rewrite key_hit_name_matches in *.
  - rewrite http_header_remove_without. unfold set_entries.
    cbn [entries refcount]. f_equal.
    + f_equal. apply without_no_hit. intros j. apply without_hits_nothing.
    + apply existsb_no_hit. intros j. apply without_hits_nothing.
Qed.

(** C7 on the collection X:1, Y:2, X:3, X:4 and the name "X". *)
Lemma remove_deletes_every_match_witness :
  nul_free (CONST_STR_LEN "X")
  /\ let hs := Sample.with_headers
                 [Sample.header "X" "1"; Sample.header "Y" "2";
                  Sample.header "X" "3"; Sample.header "X" "4"] in
     let r := http_header_remove hs (CONST_STR_LEN "X") in
     stored r.1 = [_http_header_new (CONST_STR_LEN "Y") (CONST_STR_LEN "2")]
     /\ r.2 = true
     /\ http_header_remove r.1 (CONST_STR_LEN "X") = (r.1, false).
Proof.
  assert (nul_free (CONST_STR_LEN "X")) as Hkey by (repeat constructor).
  split; [exact Hkey|]. intros hs.
  pose proof (remove_deletes_every_match (CONST_STR_LEN "X") hs Hkey) as Hrm.
  cbv zeta in Hrm |- *. destruct Hrm as (Hstored & _ & Hres & Hagain).
  split_and!.
  - rewrite Hstored. reflexivity.
  - apply Hres. eexists. split; [apply list_elem_of_here|reflexivity].
  - exact Hagain.
Defined.

(** C7 as first stated fails for a search name with a NUL byte: removing
    the name a, NUL, c deletes the header named a, NUL, b, an entry the name
    does not match, and returns true. *)
Lemma remove_stops_comparing_at_nul :
  let key := ["a"%char; NUL; "c"%char] in
  let name := ["a"%char; NUL; "b"%char] in
  let hs := Sample.with_headers [(name, CONST_STR_LEN "v")] in
  let r := http_header_remove hs key in
  stored hs = [_http_header_new name (CONST_STR_LEN "v")]
  /\ Forall (fun h => name_matches key h = false) (stored hs)
  /\ stored r.1 = []
  /\ r.2 = true
  /\ stored r.1 <> filter (fun h => name_matches key h = false) (stored hs).
Proof.
  intros key name hs r. split_and!; try reflexivity.
  - by repeat constructor.
  - discriminate.
Qed.

(** No link of the queue hits exactly when no stored header does. *)
Lemma no_hit_elements {A} (hit : A -> bool) (q : GQueue A) :
  (forall j, hit_slot hit (g_list_data q j) = false)
  <-> Forall (fun a => hit a = false) (elements q).
Proof.
  unfold g_list_data. induction q as [|s q IH].
  - split; [constructor|]. intros _ j. by rewrite lookup_nil.
  - split.
    + intros Hall. pose proof (Hall O) as H0. cbn in H0.
      assert (Forall (fun a => hit a = false) (elements q)) as IH'
        by (apply IH; intros j; apply (Hall (S j))).
      destruct s as [a|]; [|by rewrite elements_cons_None].
      rewrite elements_cons_Some. by constructor.
    + intros Hall [|j].
      * destruct s as [a|]; [|done]. rewrite elements_cons_Some in Hall.
        by apply Forall_cons in Hall as [Ha _].
      * apply IH. destruct s as [a|]; [|by rewrite elements_cons_None in Hall].
        rewrite elements_cons_Some in Hall. by apply Forall_cons in Hall as [_ Hq].
Qed.

Lemma name_matches_none key headers :
  nul_free key ->
  Forall (fun h => name_matches key h = false) (stored headers)
  <-> forall j, hit_slot (key_hit key) (g_list_data (entries headers) j) = false.
Proof.
  intros Hkey. rewrite no_hit_elements. unfold stored.
  apply Forall_proper; [|done]. intros h. by rewrite key_hit_name_matches.
Qed.

Lemma name_matches_some key headers :
  nul_free key ->
  Exists (fun h => name_matches key h = true) (stored headers) ->
  ~ forall j, hit_slot (key_hit key) (g_list_data (entries headers) j) = false.
Proof.
  intros Hkey Hex Hnone. apply name_matches_none in Hnone; [|done].
  apply Exists_exists in Hex as (h & Hin & Hh).
  apply (proj1 (Forall_forall _ _) Hnone) in Hin. congruence.
Qed.

(** ** http_header_append and http_header_overwrite *)

Lemma http_header_append_absent headers key val :
  http_header_find_last headers key = None ->
  http_header_append headers key val = Some (http_header_insert headers key val).
Proof. intros Hl. unfold http_header_append. by rewrite Hl. Qed.

(** With a header of that name in the collection, [http_header_append]
    takes the link for the header and has no defined result. *)
Lemma http_header_append_present headers key val l :
  http_header_find_last headers key = Some l ->
  http_header_append headers key val = None.
Proof. intros Hl. unfold http_header_append. by rewrite Hl. Qed.

Lemma http_header_overwrite_absent headers key val :
  http_header_find_last headers key = None ->
  http_header_overwrite headers key val = Some (http_header_insert headers key val).
Proof. intros Hl. unfold http_header_overwrite. by rewrite Hl. Qed.

Lemma http_header_overwrite_present headers key val l :
  http_header_find_last headers key = Some l ->
  http_header_overwrite headers key val = None.
Proof. intros Hl. unfold http_header_overwrite. by rewrite Hl. Qed.

(** C2. For a search name without NUL byte: when no stored header matches
    the name, [http_header_append] is [http_header_insert]; when one does, it
    has no defined result, so the value of the last match is not extended.
    So on an empty collection append("X","a") inserts the header, and
    append("X","b") after it is undefined: the stored value does not become
    "a, b". *)
Theorem append_to_existing_is_undefined :
  (forall headers key val,
     nul_free key ->
     (Forall (fun h => name_matches key h = false) (stored headers) ->
      http_header_append headers key val
      = Some (http_header_insert headers key val))
     /\ (Exists (fun h => name_matches key h = true) (stored headers) ->
         http_header_append headers key val = None))
  /\ http_header_append Sample.no_headers (CONST_STR_LEN "X") (CONST_STR_LEN "a")
     = Some (Sample.with_headers [Sample.header "X" "a"])
  /\ http_header_append (Sample.with_headers [Sample.header "X" "a"])
       (CONST_STR_LEN "X") (CONST_STR_LEN "b")
     = None.
Proof.
  split; [|split; reflexivity].
  intros headers key val Hkey. split.
  - intros Hnone. apply http_header_append_absent.
    apply (proj2 (scan_backward_None _ _)). by apply name_matches_none.
  - intros Hsome.
    destruct (http_header_find_last headers key) as [l|] eqn:Hlast.
    + by apply (http_header_append_present headers key val l).
    + pose proof (proj1 (scan_backward_None _ _) Hlast) as Hnone.
      by apply name_matches_some in Hsome.
Qed.

(** C3. For a search name without NUL byte: when no stored header matches
    the name, [http_header_overwrite] is [http_header_insert]; when one does,
    it has no defined result, so the bytes of the last match are not
    replaced. So on a collection that holds X: a, overwrite("X","b") is
    undefined: the stored bytes do not become "X: b". *)
Theorem overwrite_existing_is_undefined :
  (forall headers key val,
     nul_free key ->
     (Forall (fun h => name_matches key h = false) (stored headers) ->
      http_header_overwrite headers key val
      = Some (http_header_insert headers key val))
     /\ (Exists (fun h => name_matches key h = true) (stored headers) ->
         http_header_overwrite headers key val = None))
  /\ http_header_overwrite (Sample.with_headers [Sample.header "X" "a"])
       (CONST_STR_LEN "X") (CONST_STR_LEN "b")
     = None.
Proof.
  split; [|reflexivity].
  intros headers key val Hkey. split.
  - intros Hnone. apply http_header_overwrite_absent.
    apply (proj2 (scan_backward_None _ _)). by apply name_matches_none.
  - intros Hsome.
    destruct (http_header_find_last headers key) as [l|] eqn:Hlast.
    + by apply (http_header_overwrite_present headers key val l).
    + pose proof (proj1 (scan_backward_None _ _) Hlast) as Hnone.
      by apply name_matches_some in Hsome.
Qed.

(** ** The reference count *)

(** C8. On a live collection with a reference count of at least 1,
    [http_headers_try_reset] returns the same address with the entries
    cleared and the count back at 1 when the count was 1; otherwise it
    returns an address that was not in use, holding an empty collection with
    count 1, and the old collection keeps its entries with the count one
    less; nothing else in the heap changes. *)
Theorem try_reset_reuses_sole_owner_else_allocates (hp : heap) (a : addr) hs :
  hp !! a = Some (Some hs) ->
  1 <= refcount hs ->
  (refcount hs = 1 ->
     http_headers_try_reset hp a
     = Some (<[a := Some {| refcount := 1; entries := [] |}]> hp, a))
  /\ (1 < refcount hs ->
      exists hp' b,
        http_headers_try_reset hp a = Some (hp', b)
        /\ b <> a
        /\ hp !! b = None
        /\ hp' !! b = Some (Some {| refcount := 1; entries := [] |})
        /\ hp' !! a = Some (Some {| refcount := refcount hs - 1;
                                    entries := entries hs |})
        /\ forall c, c <> a -> c <> b -> hp' !! c = hp !! c).
Proof.
  intros Ha Hrc. unfold http_headers_try_reset. rewrite Ha.
  rewrite decide_True by lia. split.
  - intros H1. rewrite decide_True by lia. reflexivity.
  - intros Hgt. rewrite decide_False by lia.
    pose proof (lookup_lt_Some _ _ _ Ha) as Hlt.
    eexists _, _. split; [reflexivity|].
    rewrite length_insert. split_and!.
    + lia.
    + apply lookup_ge_None_2. lia.
    + rewrite lookup_app_r by (rewrite length_insert; lia).
      by rewrite length_insert, Nat.sub_diag.
    + rewrite lookup_app_l by (rewrite length_insert; lia).
      by rewrite list_lookup_insert_eq.
    + intros c Hca Hcb.
      destruct (decide (c < length hp)%nat).
      * rewrite lookup_app_l by (rewrite length_insert; lia).
        by rewrite list_lookup_insert_ne.
      * rewrite lookup_ge_None_2 by (rewrite length_app, length_insert; cbn; lia).
        symmetry. apply lookup_ge_None_2. lia.
Qed.

(** C8 on a heap with one collection that holds a header: with count 1 the
    address comes back, with count 2 another one does. *)
Lemma try_reset_reuses_sole_owner_else_allocates_witness :
  let hs := Sample.with_headers [Sample.header "X" "a"] in
  http_headers_try_reset [Some hs] O
  = Some ([Some {| refcount := 1; entries := [] |}], O)
  /\ exists hp' b,
       http_headers_try_reset [Some (set_refcount hs 2)] O = Some (hp', b)
       /\ b <> O
       /\ hp' !! O = Some (Some (set_refcount hs 1)).
Proof.
  intros hs. split.
  - apply (try_reset_reuses_sole_owner_else_allocates [Some hs] O hs);
      [reflexivity|cbn; lia|reflexivity].
  - destruct (try_reset_reuses_sole_owner_else_allocates
                [Some (set_refcount hs 2)] O (set_refcount hs 2))
      as [_ Hfresh]; [reflexivity|cbn; lia|].
    destruct Hfresh as (hp' & b & Hr & Hb & _ & _ & Ha & _); [cbn; lia|].
    exists hp', b. split_and!; [exact Hr|exact Hb|exact Ha].
Defined.

(** ** request_init and request_reset *)

Lemma request_init_initial_state (hp : heap) :
  initial_state (request_init hp).1 (request_init hp).2.
Proof.
  unfold initial_state, request_init, http_headers_new, g_slice_new0.
  cbn [fst snd http_method http_version http_method_str uri raw scheme
       authority path query host content_length headers].
  split_and!; try reflexivity.
  rewrite lookup_app_r by lia. by rewrite Nat.sub_diag.
Qed.

(** C10. [request_init] sets up the initial state; and on a request whose
    collection is live and has a reference count of 1, [request_reset]
    returns a request in that same state, on the same collection object:
    method and version unset, the method string and the six strings of the
    URI empty, content length -1, and the collection empty with count 1. *)
Theorem request_reset_restores_initial_state (hp : heap) req hs :
  hp !! headers req = Some (Some hs) ->
  refcount hs = 1 ->
  initial_state (request_init hp).1 (request_init hp).2
  /\ exists hp' req',
       request_reset hp req = Some (hp', req')
       /\ initial_state hp' req'
       /\ headers req' = headers req
       /\ req' = {| http_method := http_method (request_init hp).2;
                    http_method_str := http_method_str (request_init hp).2;
                    http_version := http_version (request_init hp).2;
                    uri := uri (request_init hp).2;
                    headers := headers req;
                    content_length := content_length (request_init hp).2 |}.
Proof.
  intros Hhs Hrc. split; [apply request_init_initial_state|].
  unfold request_reset, http_headers_try_reset. rewrite Hhs.
  rewrite decide_True by lia. rewrite decide_True by lia.
  eexists _, _. split; [reflexivity|].
  unfold initial_state.
  cbn [fst snd http_method http_version http_method_str uri raw scheme
       authority path query host content_length headers].
  split_and!; try reflexivity.
  apply list_lookup_insert_eq. by eapply lookup_lt_Some.
Qed.

(** C10 on a request that was filled and whose collection holds a header. *)
Lemma request_reset_restores_initial_state_witness :
  let hs := Sample.with_headers [Sample.header "Host" "example.org"] in
  let req := set_content_length
               (Sample.request_of HTTP_METHOD_POST HTTP_VERSION_1_1) 5 in
  exists hp' req',
    request_reset [Some hs] req = Some (hp', req')
    /\ initial_state hp' req'.
Proof.
  intros hs req.
  destruct (request_reset_restores_initial_state [Some hs] req hs)
    as [_ (hp' & req' & Hreset & Hinit & _)]; [reflexivity|reflexivity|].
  exists hp', req'. split; [exact Hreset|exact Hinit].
Defined.

(** ** The validator *)

Section ValidatorFacts.
Context `{Platform} `{Collaborators}.

Lemma run_app cs1 cs2 con :
  run (cs1 ++ cs2) con
  = match run cs1 con with
    | Accepted c => run cs2 c
    | r => r
    end.
Proof.
  revert con; induction cs1 as [|c cs1 IH]; intros con; cbn [app run]; [done|].
  destruct (c con); [apply IH|done|done].
Qed.

(** Once the first [k] checks have passed, the validator is the rest of the
    checks on the connection they left. *)
Lemma validate_from errno hp con k hs con_k :
  reaches errno hp con k hs con_k ->
  request_validate_header errno hp con = run (drop k (checks errno hs)) con_k.
Proof.
  intros [Hhs Hrun]. unfold request_validate_header. rewrite Hhs.
  rewrite <- (take_drop k (checks errno hs)) at 1.
  by rewrite run_app, Hrun.
Qed.

(** Two Host headers: 400, whatever they hold. *)
Lemma get_hostname_duplicate hs con l l2 :
  http_header_find_first hs (CONST_STR_LEN "host") = Some l ->
  http_header_find_next hs l (CONST_STR_LEN "host") = Some l2 ->
  get_hostname hs con = reject con 400.
Proof.
  intros Hfirst Hnext. unfold get_hostname. rewrite Hfirst, Hnext.
  by rewrite bool_decide_eq_true_2.
Qed.

(** One Host header: its value is appended to the authority, and the
    hostname parser decides. *)
Lemma get_hostname_single hs con l hh :
  http_header_find_first hs (CONST_STR_LEN "host") = Some l ->
  http_header_find_next hs l (CONST_STR_LEN "host") = None ->
  header_at hs l = Some hh ->
  (keylen hh + 2 <= length (data hh))%nat ->
  let req := con_request con in
  let parsed :=
    parse_hostname
      (set_authority (uri req) (authority (uri req) ++ header_value hh)) in
  let con' := set_request con (set_uri req parsed.2) in
  get_hostname hs con = if parsed.1 then Accepted con' else reject con' 400.
Proof.
  intros Hfirst Hnext Hhh Hlen. unfold get_hostname. rewrite Hfirst, Hnext.
  rewrite bool_decide_eq_false_2 by (by intros [? [=]]).
  unfold load_header. unfold header_at in Hhh. rewrite Hhh.
  unfold HEADER_VALUE. rewrite decide_True by done.
  cbv zeta. unfold g_string_append_len, header_value.
  by destruct (parse_hostname _) as [[] u].
Qed.

(** No Host header: the link that was not found is dereferenced. *)
Lemma get_hostname_absent hs con :
  http_header_find_first hs (CONST_STR_LEN "host") = None ->
  get_hostname hs con = Fault.
Proof. intros Hfirst. unfold get_hostname. by rewrite Hfirst. Qed.

End ValidatorFacts.

(** C1. A request that passes the version and the URI checks and has no
    stored header that the name "host" matches: the validator has no defined
    result, on every platform and with any collaborators; validation does
    not proceed with an empty authority and host. So for GET / HTTP/1.0
    without any header. *)
Theorem validate_without_host_is_undefined :
  (forall (P : Platform) (C : Collaborators) errno (hp : heap) con hs con2,
     reaches errno hp con 2 hs con2 ->
     Forall (fun h => name_matches (CONST_STR_LEN "host") h = false) (stored hs) ->
     request_validate_header errno hp con = Fault)
  /\ (forall (P : Platform) (C : Collaborators) errno,
        request_validate_header errno [Some Sample.no_headers]
          (Sample.connection_of HTTP_METHOD_GET HTTP_VERSION_1_0)
        = Fault).
Proof.
  split; [|reflexivity].
  intros P C errno hp con hs con2 Hreach Hnone.
  rewrite (validate_from errno hp con 2 hs con2) by done.
  unfold checks. cbn [drop run].
  rewrite get_hostname_absent; [done|].
  apply (proj2 (scan_forward_None _ _ _)).
  apply name_matches_none; [repeat constructor|done].
Qed.

(** ** Content-Length *)

Section ContentLength.
Context `{Platform} `{Collaborators}.

Lemma content_length_header_absent errno hs con :
  http_header_find_last hs (CONST_STR_LEN "content-length") = None ->
  content_length_header errno hs con = Accepted con.
Proof.
  intros Hlast. unfold content_length_header, http_header_lookup.
  by rewrite Hlast.
Qed.

(** With a Content-Length header, the value of the last one is converted,
    and the outcome follows from what the conversion returns. *)
Lemma content_length_header_present errno hs con l hv :
  http_header_find_last hs (CONST_STR_LEN "content-length") = Some l ->
  header_at hs l = Some hv ->
  (keylen hv + 2 <= length (data hv))%nat ->
  let conv := str_to_off_t errno (header_value hv) in
  content_length_header errno hs con
  = if negb (is_nul (peek conv.1.2)) then reject con 400
    else if conv.1.1 <? 0 then reject con 400
    else if ((conv.1.1 =? STR_OFF_T_MIN) || (conv.1.1 =? STR_OFF_T_MAX))
            && (conv.2 =? ERANGE)
    then reject con 413
    else Accepted (set_request con
                     (set_content_length (con_request con) conv.1.1)).
Proof.
  intros Hlast Hhv Hlen. unfold content_length_header, http_header_lookup.
  rewrite Hlast. unfold load_header. unfold header_at in Hhv. rewrite Hhv.
  unfold HEADER_VALUE. rewrite decide_True by done. unfold header_value.
  by destruct (str_to_off_t errno _) as [[r err] e].
Qed.

(** What the check leaves of the method and the content length. *)
Lemma content_length_header_accepted errno hs con con1 :
  content_length_header errno hs con = Accepted con1 ->
  http_method (con_request con1) = http_method (con_request con)
  /\ (content_length (con_request con1) = content_length (con_request con)
      \/ 0 <= content_length (con_request con1)).
Proof.
  unfold content_length_header.
  destruct (http_header_lookup _ _) as [hh|]; [|intros [= <-]; auto].
  destruct (load_header hs hh) as [hv|]; [|done].
  destruct (HEADER_VALUE hv) as [val|]; [|done].
  destruct (str_to_off_t errno val) as [[r err] e].
  destruct (negb (is_nul (peek err))); [done|].
  destruct (Z.ltb_spec r 0); [done|].
  destruct (((r =? STR_OFF_T_MIN) || (r =? STR_OFF_T_MAX)) && (e =? ERANGE));
    [done|].
  intros [= <-]. cbn. auto.
Qed.

End ContentLength.

Example content_length_conversions :
  let conv := @str_to_off_t Sample.lp64 0 in
  conv (CONST_STR_LEN "-1") = (-1, [], 0)
  /\ conv (CONST_STR_LEN "abc") = (0, CONST_STR_LEN "abc", 0)
  /\ conv (CONST_STR_LEN "0") = (0, [], 0)
  /\ conv (CONST_STR_LEN "12a") = (12, CONST_STR_LEN "a", 0)
  /\ conv (CONST_STR_LEN "9223372036854775807") = (2 ^ 63 - 1, [], 0)
  /\ conv (CONST_STR_LEN "9223372036854775808") = (2 ^ 63 - 1, [], 34)
  /\ conv (CONST_STR_LEN "") = (0, [], 0).
Proof. repeat split. Qed.

Example content_length_rejections :
  let validate val m :=
    @request_validate_header Sample.lp64 Sample.lenient 0
      [Some (Sample.with_headers
               [Sample.header "Host" "example.org"; (CONST_STR_LEN "Content-Length", val)])]
      (Sample.connection_of m HTTP_VERSION_1_1) in
  (exists con, validate (CONST_STR_LEN "-1") HTTP_METHOD_POST = Rejected 400 con)
  /\ (exists con, validate (CONST_STR_LEN "abc") HTTP_METHOD_POST = Rejected 400 con)
  /\ (exists con, validate (CONST_STR_LEN "99999999999999999999") HTTP_METHOD_POST
                  = Rejected 413 con)
  /\ (exists con, validate (CONST_STR_LEN "0") HTTP_METHOD_GET = Accepted con
                  /\ content_length (con_request con) = 0).
Proof. cbv zeta. split_and!; eexists; try split; reflexivity. Qed.

(** C4. A request that reaches the Content-Length check and whose last
    Content-Length header has an empty value, which is not a number: the
    check does not reject it with 400 but stores a content length of 0 and
    the validator goes on. So a POST / HTTP/1.1 request with a Host header
    and an empty Content-Length is accepted with a content length of 0,
    whatever [errno] was. *)
Theorem empty_content_length_is_accepted :
  (forall (P : Platform) (C : Collaborators) errno (hp : heap) con hs con5 l hv,
     STR_OFF_T_MIN < 0 < STR_OFF_T_MAX ->
     reaches errno hp con 5 hs con5 ->
     http_header_find_last hs (CONST_STR_LEN "content-length") = Some l ->
     header_at hs l = Some hv ->
     (keylen hv + 2 <= length (data hv))%nat ->
     header_value hv = [] ->
     request_validate_header errno hp con
     = run (drop 6 (checks errno hs))
         (set_request con5 (set_content_length (con_request con5) 0)))
  /\ (forall errno,
        exists con,
          @request_validate_header Sample.lp64 Sample.lenient errno
            [Some (Sample.with_headers
                     [Sample.header "Host" "example.org";
                      Sample.header "Content-Length" ""])]
            (Sample.connection_of HTTP_METHOD_POST HTTP_VERSION_1_1)
          = Accepted con
          /\ content_length (con_request con) = 0).
Proof.
  split; [|intros errno; eexists; split; reflexivity].
  intros P C errno hp con hs con5 l hv Hrange Hreach Hlast Hhv Hlen Hempty.
  rewrite (validate_from errno hp con 5 hs con5) by done.
  unfold checks. cbn [drop run].
  rewrite (content_length_header_present errno hs con5 l hv) by done.
  rewrite Hempty. cbn [str_to_off_t skip_space digits fst snd peek].
  change (is_nul NUL) with true. cbn [negb].
  rewrite (proj2 (Z.ltb_ge 0 0)) by lia.
  rewrite (proj2 (Z.eqb_neq 0 STR_OFF_T_MIN)) by lia.
  rewrite (proj2 (Z.eqb_neq 0 STR_OFF_T_MAX)) by lia.
  reflexivity.
Qed.

(** ** What the checks leave of the method and the content length *)

Section Preservation.
Context `{Platform} `{Collaborators}.

Lemma check_version_accepted hs con con1 :
  check_version hs con = Accepted con1 -> con_request con1 = con_request con.
Proof.
  unfold check_version.
  destruct (http_version (con_request con)); [done| |].
  - destruct (http_header_is _ _ _) as [[]|]; [| |done]; by intros [= <-].
  - destruct (http_header_is _ _ _) as [[]|]; [| |done]; by intros [= <-].
Qed.

Lemma check_raw_uri_accepted con con1 :
  check_raw_uri con = Accepted con1 -> con1 = con.
Proof.
  unfold check_raw_uri. destruct (_ =? _)%nat; [done|]. by intros [= <-].
Qed.

Lemma get_hostname_accepted hs con con1 :
  get_hostname hs con = Accepted con1 ->
  http_method (con_request con1) = http_method (con_request con)
  /\ content_length (con_request con1) = content_length (con_request con)
  /\ http_version (con_request con1) = http_version (con_request con).
Proof.
  unfold get_hostname.
  destruct (http_header_find_first hs _) as [l|]; [|done].
  destruct (bool_decide _); [done|].
  destruct (load_header hs _) as [hh|]; [|done].
  destruct (HEADER_VALUE hh) as [v|]; [|done].
  destruct (parse_hostname _) as [[] u]; [|done].
  by intros [= <-].
Qed.

Lemma need_hostname_accepted con con1 :
  need_hostname con = Accepted con1 -> con1 = con.
Proof.
  unfold need_hostname. destruct (_ && _); [done|]. by intros [= <-].
Qed.

Lemma may_override_hostname_accepted con con1 :
  may_override_hostname con = Accepted con1 ->
  http_method (con_request con1) = http_method (con_request con)
  /\ content_length (con_request con1) = content_length (con_request con)
  /\ http_version (con_request con1) = http_version (con_request con).
Proof.
  unfold may_override_hostname, request_parse_url.
  destruct (parse_raw_url _) as [[] u]; cbn [negb]; [|done].
  destruct (_ && _); cbn [negb]; [done|]. by intros [= <-].
Qed.

Lemma expect_100_continue_accepted hs con con1 :
  expect_100_continue hs con = Accepted con1 ->
  con_request con1 = con_request con.
Proof.
  unfold expect_100_continue.
  destruct (http_header_find_first hs _) as [l|]; [|by intros [= <-]].
  destruct (expect_loop hs _ _) as [flag| |]; [|done|done].
  destruct (_ && _); [done|]. by intros [= <-].
Qed.

(** The first seven checks keep the method, and leave a content length that
    is the one they found or is not negative. *)
Lemma before_method_policy errno hs con con7 :
  run (take 7 (checks errno hs)) con = Accepted con7 ->
  http_method (con_request con7) = http_method (con_request con)
  /\ (content_length (con_request con7) = content_length (con_request con)
      \/ 0 <= content_length (con_request con7)).
Proof.
  unfold checks. cbn [take run].
  destruct (check_version hs con) as [c1| |] eqn:E1; [|done|done].
  destruct (check_raw_uri c1) as [c2| |] eqn:E2; [|done|done].
  destruct (get_hostname hs c2) as [c3| |] eqn:E3; [|done|done].
  destruct (need_hostname c3) as [c4| |] eqn:E4; [|done|done].
  destruct (may_override_hostname c4) as [c5| |] eqn:E5; [|done|done].
  destruct (content_length_header errno hs c5) as [c6| |] eqn:E6; [|done|done].
  destruct (expect_100_continue hs c6) as [c7| |] eqn:E7; [|done|done].
  intros [= <-].
  apply check_version_accepted in E1. apply check_raw_uri_accepted in E2.
  apply get_hostname_accepted in E3 as (Hm3 & Hc3 & _).
  apply need_hostname_accepted in E4.
  apply may_override_hostname_accepted in E5 as (Hm5 & Hc5 & _).
  apply content_length_header_accepted in E6 as (Hm6 & Hc6).
  apply expect_100_continue_accepted in E7.
  subst c2 c4. rewrite E7, Hm6, Hm5, Hm3, E1. split; [done|].
  destruct Hc6 as [Hc6|Hc6]; [left|by right].
  by rewrite Hc6, Hc5, Hc3, E1.
Qed.

(** An accepted request went through the first seven checks. *)
Lemma accepted_through_method_policy errno hp con con' :
  request_validate_header errno hp con = Accepted con' ->
  exists hs con7,
    reaches errno hp con 7 hs con7 /\ method_policy con7 = Accepted con'.
Proof.
  unfold request_validate_header, reaches.
  destruct (hp !! headers (con_request con)) as [[hs|]|]; [|done|done].
  rewrite <- (take_drop 7 (checks errno hs)) at 1. rewrite run_app.
  destruct (run (take 7 (checks errno hs)) con) as [con7| |] eqn:E7;
    [|done|done].
  unfold checks. cbn [drop run]. intros Hpol.
  exists hs, con7. split; [done|].
  by destruct (method_policy con7).
Qed.

End Preservation.

(** C5. For a request that reaches the method check as [con7]: GET and HEAD
    with a positive content length are rejected with 400 and otherwise
    accepted with the content length set to 0; POST with a content length of
    -1 is rejected with 411 and otherwise accepted as it is; every other
    method is accepted as it is. And when a request that came in with a
    content length of -1 or more is accepted and its method is GET, HEAD or
    POST, its content length is not negative. *)
Theorem method_content_length_policy `{Platform} `{Collaborators}
  errno (hp : heap) con hs :
  hp !! headers (con_request con) = Some (Some hs) ->
  -1 <= content_length (con_request con) ->
  let out := request_validate_header errno hp con in
  (forall con7,
     run (take 7 (checks errno hs)) con = Accepted con7 ->
     let req := con_request con7 in
     match http_method req with
     | HTTP_METHOD_GET | HTTP_METHOD_HEAD =>
         (0 < content_length req -> out = reject con7 400)
         /\ (content_length req <= 0 ->
             out = Accepted (set_request con7 (set_content_length req 0)))
     | HTTP_METHOD_POST =>
         (content_length req = -1 -> out = reject con7 411)
         /\ (content_length req <> -1 -> out = Accepted con7)
     | _ => out = Accepted con7
     end)
  /\ (forall con',
        out = Accepted con' ->
        match http_method (con_request con') with
        | HTTP_METHOD_GET | HTTP_METHOD_HEAD | HTTP_METHOD_POST =>
            0 <= content_length (con_request con')
        | _ => True
        end).
Proof.
  intros Hhs Hentry out. subst out. split.
  - intros con7 H7 req. subst req.
    rewrite (validate_from errno hp con 7 hs con7) by done.
    unfold checks. cbn [drop run]. unfold method_policy.
    destruct (http_method (con_request con7)); try done.
    + split; intros Hcl.
      * by rewrite (proj2 (Z.ltb_lt _ _) Hcl).
      * by rewrite (proj2 (Z.ltb_ge _ _) Hcl).
    + split; intros Hcl.
      * by rewrite (proj2 (Z.eqb_eq _ _) Hcl).
      * by rewrite (proj2 (Z.eqb_neq _ _) Hcl).
    + split; intros Hcl.
      * by rewrite (proj2 (Z.ltb_lt _ _) Hcl).
      * by rewrite (proj2 (Z.ltb_ge _ _) Hcl).
  - intros con' Hacc.
    apply accepted_through_method_policy in Hacc
      as (hs' & con7 & [Hhs' H7] & Hpol).
    apply before_method_policy in H7 as [Hm Hcl].
    unfold method_policy in Hpol.
    destruct (http_method (con_request con7)) eqn:Hm7.
    + injection Hpol as <-. by rewrite Hm7.
    + destruct (0 <? _); [done|]. injection Hpol as <-. cbn. rewrite Hm7. lia.
    + destruct (Z.eqb_spec (content_length (con_request con7)) (-1)); [done|].
      injection Hpol as <-. rewrite Hm7. lia.
    + destruct (0 <? _); [done|]. injection Hpol as <-. cbn. rewrite Hm7. lia.
    + injection Hpol as <-. by rewrite Hm7.
    + injection Hpol as <-. by rewrite Hm7.
Qed.

(** C5 on a HEAD request that carries a Host header only: it is accepted
    with a content length of 0. *)
Lemma method_content_length_policy_witness :
  let hs := Sample.with_headers [Sample.header "Host" "example.org"] in
  let con := Sample.connection_of HTTP_METHOD_HEAD HTTP_VERSION_1_1 in
  [Some hs] !! headers (con_request con) = Some (Some hs)
  /\ -1 <= content_length (con_request con)
  /\ (exists con',
        @request_validate_header Sample.lp64 Sample.lenient 0 [Some hs] con
        = Accepted con'
        /\ content_length (con_request con') = 0)
  /\ forall con',
       @request_validate_header Sample.lp64 Sample.lenient 0 [Some hs] con
       = Accepted con' ->
       0 <= content_length (con_request con').
Proof.
  intros hs con.
  assert ([Some hs] !! headers (con_request con) = Some (Some hs)) as Hhs
    by reflexivity.
  assert (-1 <= content_length (con_request con)) as Hentry by (cbn; lia).
  split; [exact Hhs|]. split; [exact Hentry|].
  destruct (@method_content_length_policy Sample.lp64 Sample.lenient
              0 [Some hs] con hs Hhs Hentry) as [Hpolicy Haccepted].
  split.
  - destruct (Hpolicy _ eq_refl) as [_ Hzero].
    eexists. split; [apply Hzero; cbn; lia|reflexivity].
  - intros con' Hacc. pose proof (Haccepted con' Hacc) as Hpol.
    vm_compute in Hacc. injection Hacc as <-. exact Hpol.
Defined.

(** ** Expect: 100-continue *)

Lemma nul_free_drop n s : nul_free s -> nul_free (drop n s).
Proof. apply Forall_drop. Qed.

Lemma run_single (c : connection -> outcome) con : run [c] con = c con.
Proof. cbn [run]. by destruct (c con). Qed.

Lemma filter_no_hit {A} (hit : A -> bool) (q : GQueue A) :
  (forall j, hit_slot hit (g_list_data q j) = false) ->
  filter (fun a => hit a = true) (elements q) = [].
Proof.
  unfold g_list_data. intros Hall. induction q as [|s q IH]; [done|].
  pose proof (Hall O) as H0. cbn in H0.
  assert (filter (fun a => hit a = true) (elements q) = []) as IH'
    by (apply IH; intros j; apply (Hall (S j))).
  destruct s as [a|]; [|by rewrite elements_cons_None].
  rewrite elements_cons_Some, filter_cons. cbn in H0.
  rewrite decide_False by (by rewrite H0). exact IH'.
Qed.

Lemma Forall_filter_keeps {A} (P : A -> Prop) (Q : A -> Prop)
  `{!forall x, Decision (Q x)} (l : list A) :
  Forall P l -> Forall P (filter Q l).
Proof.
  intros Hall. apply Forall_forall. intros x [_ Hin]%list_elem_of_filter.
  by apply (proj1 (Forall_forall _ _) Hall).
Qed.

Lemma header_wf_value_is_text h : header_wf h -> value_is_text h.
Proof. intros [Hlen Hnul]. split; [done|]. by apply nul_free_drop. Qed.

Lemma expect_headers_text hs :
  Forall header_wf (stored hs) -> Forall value_is_text (expect_headers hs).
Proof.
  intros Hwf. apply Forall_filter_keeps.
  eapply Forall_impl; [exact Hwf|]. apply header_wf_value_is_text.
Qed.

Section Expect.
Context `{Platform} `{Collaborators}.

(** The loop over the Expect headers, started at the first of them among
    the links [after]: it ends at the first whose value is not
    "100-continue", and else leaves the flag set if there was one. *)
Lemma expect_loop_walk hs :
  forall after before flag,
    entries hs = before ++ after ->
    let found := filter (fun h => key_hit (CONST_STR_LEN "expect") h = true)
                   (elements after) in
    Forall value_is_text found ->
    expect_loop hs
      (scan_forward (key_hit (CONST_STR_LEN "expect")) after (length before)) flag
    = if forallb expects_100_continue found
      then ExpectDone (flag || negb (bool_decide (found = [])))
      else ExpectUnsupported.
Proof.
  induction after as [|s rest IH]; intros before flag Hq found Hwf; subst found.
  - cbn [scan_forward]. simp expect_loop. cbn. by rewrite orb_false_r.
  - assert (entries hs = (before ++ [s]) ++ rest) as Hq'
      by (by rewrite <- app_assoc).
    assert (length (before ++ [s]) = S (length before)) as Hlen
      by (rewrite length_app; cbn; lia).
    cbn [scan_forward]. destruct s as [h|]; cbn [hit_slot].
    + rewrite elements_cons_Some in Hwf |- *.
      rewrite filter_cons in Hwf |- *.
      destruct (key_hit (CONST_STR_LEN "expect") h) eqn:Hh.
      * rewrite decide_True in Hwf |- * by done.
        apply Forall_cons in Hwf as [[Hh2 Hhn] Hwf]. simp expect_loop.
        unfold load_header, g_list_data. rewrite Hq.
        rewrite list_lookup_middle by done. cbn [mjoin option_join].
        unfold HEADER_VALUE. rewrite decide_True by done.
        unfold strcasecmp.
        rewrite g_ascii_strcasecmp_caseless; [|done|repeat constructor].
        fold (header_value h). fold (expects_100_continue h).
        cbn [forallb].
        destruct (expects_100_continue h); cbn [andb]; [|done].
        unfold http_header_find_next. rewrite Hq, drop_past_length.
        rewrite <- Hlen. rewrite (IH (before ++ [Some h]) true Hq' Hwf).
        cbv zeta. rewrite (bool_decide_eq_false_2 (h :: _ = [])) by done.
        cbn [negb orb]. by rewrite orb_true_r.
      * rewrite decide_False in Hwf |- * by done.
        rewrite <- Hlen. apply (IH (before ++ [Some h]) flag Hq' Hwf).
    + rewrite elements_cons_None in Hwf |- *.
      rewrite <- Hlen. apply (IH (before ++ [None]) flag Hq' Hwf).
Qed.

Lemma expect_100_continue_spec hs con :
  Forall value_is_text (expect_headers hs) ->
  expect_100_continue hs con
  = if bool_decide (expect_headers hs = []) then Accepted con
    else if negb (forallb expects_100_continue (expect_headers hs))
    then reject con 417
    else if (if http_version (con_request con) is HTTP_VERSION_1_0
             then true else false)
    then reject con 417
    else Accepted (set_expect_100_cont con true).
Proof.
  unfold expect_100_continue, expect_headers.
  assert (filter (fun h => name_matches (CONST_STR_LEN "expect") h = true) (stored hs)
          = filter (fun h => key_hit (CONST_STR_LEN "expect") h = true) (stored hs))
    as -> by (apply list_filter_iff; intros h;
              rewrite key_hit_name_matches; [done|repeat constructor]).
  intros Hwf. unfold http_header_find_first.
  pose proof (expect_loop_walk hs (entries hs) [] false eq_refl Hwf) as Hwalk.
  cbv zeta in Hwalk. change (length []) with O in Hwalk.
  fold (stored hs) in Hwalk.
  destruct (scan_forward _ (entries hs) O) as [l|] eqn:Hfirst.
  - rewrite Hwalk.
    apply scan_forward_split in Hfirst as (before & h & rest & Hq & _ & Hh & _).
    assert (h ∈ filter (fun h => key_hit (CONST_STR_LEN "expect") h = true) (stored hs))
      as Hin.
    { apply list_elem_of_filter. split; [done|].
      unfold stored, elements. rewrite Hq. apply list_elem_of_omap.
      exists (Some h). split; [|done]. apply elem_of_app. right.
      apply list_elem_of_here. }
    destruct (filter _ (stored hs)) as [|h0 found] eqn:Hf;
      [by apply elem_of_nil in Hin|].
    rewrite bool_decide_eq_false_2 by done.
    destruct (forallb expects_100_continue (h0 :: found)); cbn [negb orb andb];
      [|done].
    by destruct (http_version (con_request con)).
  - pose proof (proj1 (scan_forward_None _ _ _) Hfirst) as Hnone.
    unfold stored. by rewrite filter_no_hit.
Qed.

Lemma method_policy_keeps_flag con con' :
  method_policy con = Accepted con' -> expect_100_cont con' = expect_100_cont con.
Proof.
  unfold method_policy.
  destruct (http_method (con_request con));
    repeat match goal with
           | |- context [if ?b then _ else _] => destruct b
           end; try done; by intros [= <-].
Qed.

End Expect.

(** C6, amended. For a request whose Expect headers have values without NUL
    byte and that reaches the Expect check as [con6]: without an Expect
    header the validator goes on to the method check with the connection as
    it is, flag included; if some Expect header has a value other than
    "100-continue" (up to case) it rejects with 417; if all have that value
    it rejects with 417 under HTTP/1.0, and otherwise goes on to the method
    check with the flag set, so that a request that is then accepted has the
    flag set. *)
Theorem expect_negotiation `{Platform} `{Collaborators}
  errno (hp : heap) con hs :
  hp !! headers (con_request con) = Some (Some hs) ->
  Forall value_is_text (expect_headers hs) ->
  let out := request_validate_header errno hp con in
  forall con6,
    run (take 6 (checks errno hs)) con = Accepted con6 ->
    (expect_headers hs = [] ->
       out = method_policy con6
       /\ forall con', out = Accepted con' ->
                       expect_100_cont con' = expect_100_cont con6)
    /\ (Exists (fun h => expects_100_continue h = false) (expect_headers hs) ->
        out = reject con6 417)
    /\ (expect_headers hs <> [] ->
        Forall (fun h => expects_100_continue h = true) (expect_headers hs) ->
        if http_version (con_request con6) is HTTP_VERSION_1_0
        then out = reject con6 417
        else out = method_policy (set_expect_100_cont con6 true)
             /\ forall con', out = Accepted con' -> expect_100_cont con' = true).
Proof.
  intros Hhs Hwf out con6 H6. subst out.
  rewrite (validate_from errno hp con 6 hs con6) by done.
  unfold checks. cbn [drop run].
  rewrite expect_100_continue_spec by done.
  split_and!.
  - intros Hnone. rewrite bool_decide_eq_true_2 by done.
    fold (run [method_policy] con6). rewrite run_single.
    split; [done|]. apply method_policy_keeps_flag.
  - intros Hother.
    assert (expect_headers hs <> []) as Hsome
      by (intros Heq; rewrite Heq in Hother; by apply Exists_nil in Hother).
    rewrite bool_decide_eq_false_2 by done.
    assert (forallb expects_100_continue (expect_headers hs) = false) as ->; [|done].
    apply not_true_iff_false. rewrite forallb_forall.
    apply Exists_exists in Hother as (h & Hin & Hno).
    intros Hall. apply list_elem_of_In in Hin. apply Hall in Hin. congruence.
  - intros Hsome Hall. rewrite bool_decide_eq_false_2 by done.
    assert (forallb expects_100_continue (expect_headers hs) = true) as ->.
    { apply forallb_forall. intros h Hin. apply list_elem_of_In in Hin.
      by apply (proj1 (Forall_forall _ _) Hall). }
    cbn [negb].
    destruct (http_version (con_request con6)).
    + fold (run [method_policy] (set_expect_100_cont con6 true)).
      rewrite run_single. split; [done|].
      intros con' Hacc. by apply method_policy_keeps_flag in Hacc.
    + done.
    + fold (run [method_policy] (set_expect_100_cont con6 true)).
      rewrite run_single. split; [done|].
      intros con' Hacc. by apply method_policy_keeps_flag in Hacc.
Qed.

(** C6 on a GET / HTTP/1.1 request with a Host header and
    "Expect: 100-continue". *)
Lemma expect_negotiation_witness :
  let hs := Sample.with_headers
              [Sample.header "Host" "example.org";
               Sample.header "Expect" "100-continue"] in
  let con := Sample.connection_of HTTP_METHOD_GET HTTP_VERSION_1_1 in
  [Some hs] !! headers (con_request con) = Some (Some hs)
  /\ Forall value_is_text (expect_headers hs)
  /\ forall con',
       @request_validate_header Sample.lp64 Sample.lenient 0 [Some hs] con
       = Accepted con' ->
       expect_100_cont con' = true.
Proof.
  intros hs con.
  assert ([Some hs] !! headers (con_request con) = Some (Some hs)) as Hhs
    by reflexivity.
  assert (Forall value_is_text (expect_headers hs)) as Hwf.
  { apply Forall_cons_2; [|apply Forall_nil_2].
    split; [cbn; lia|repeat constructor]. }
  split; [exact Hhs|]. split; [exact Hwf|].
  destruct (@expect_negotiation Sample.lp64 Sample.lenient 0 [Some hs] con hs
              Hhs Hwf _ eq_refl) as (_ & _ & Hall).
  apply Hall; [discriminate|repeat constructor].
Defined.

(** C6 as first stated fails for an Expect value with a NUL byte:
    [strcasecmp] reads the value as a C string, so on a GET / HTTP/1.1
    request the header "Expect: 100-continue", NUL, "gzip", whose value is
    not "100-continue", is not rejected with 417; the request is accepted
    with the flag set. *)
Lemma expect_stops_comparing_at_nul :
  let value := CONST_STR_LEN "100-continue" ++ [NUL] ++ CONST_STR_LEN "gzip" in
  let hs := Sample.with_headers
              [Sample.header "Host" "example.org";
               (CONST_STR_LEN "Expect", value)] in
  let con := Sample.connection_of HTTP_METHOD_GET HTTP_VERSION_1_1 in
  let out := @request_validate_header Sample.lp64 Sample.lenient 0 [Some hs] con in
  expect_headers hs = [_http_header_new (CONST_STR_LEN "Expect") value]
  /\ Exists (fun h => expects_100_continue h = false) (expect_headers hs)
  /\ (forall c, out <> Rejected 417 c)
  /\ exists con', out = Accepted con' /\ expect_100_cont con' = true.
Proof.
  intros value hs con out. split_and!.
  - reflexivity.
  - apply Exists_cons_hd. reflexivity.
  - intros c. discriminate.
  - eexists. split; reflexivity.
Qed.

(** * Further properties of the header collection *)

Lemma ascii_caseless_eq_refl a : ascii_caseless_eq a a = true.
Proof. induction a as [|c a IH]; [done|]. cbn. by rewrite Z.eqb_refl, IH. Qed.



Lemma ascii_caseless_eq_length a b :
  ascii_caseless_eq a b = true -> length a = length b.
Proof.
  revert b; induction a as [|x a IH]; intros [|y b]; cbn; try done.
  intros [_ Hab]%andb_prop. f_equal. by apply IH.
Qed.

(** A header built for [key] is matched by the names that equal [key] up to
    case, and by no other. *)
Lemma name_matches_new key' key val :
  name_matches key' (_http_header_new key val) = ascii_caseless_eq key' key.
Proof.
  unfold name_matches. rewrite header_name_new.
  change (keylen (_http_header_new key val)) with (length key).
  destruct (ascii_caseless_eq key' key) eqn:E; [|by rewrite andb_false_r].
  apply ascii_caseless_eq_length in E. rewrite E, Nat.eqb_refl. done.
Qed.

Lemma key_hit_new key' key val :
  nul_free key' ->
  key_hit key' (_http_header_new key val) = ascii_caseless_eq key' key.
Proof. intros Hk. by rewrite key_hit_name_matches, name_matches_new. Qed.

Lemma scan_forward_app {A} (hit : A -> bool) (q1 q2 : GQueue A) i :
  scan_forward hit (q1 ++ q2) i
  = match scan_forward hit q1 i with
    | Some l => Some l
    | None => scan_forward hit q2 (i + length q1)%nat
    end.
Proof.
  revert i; induction q1 as [|s q1 IH]; intros i; cbn [app scan_forward length].
  - by rewrite Nat.add_0_r.
  - destruct (hit_slot hit s); [done|]. rewrite IH. by rewrite Nat.add_succ_r.
Qed.

Lemma g_list_data_push_tail {A} (q : GQueue A) x :
  g_list_data (g_queue_push_tail q x) (length q) = Some x.
Proof.
  unfold g_list_data, g_queue_push_tail. by rewrite list_lookup_middle.
Qed.

Lemma lookup_insert_new headers key val key' :
  nul_free key' ->
  ascii_caseless_eq key' key = true ->
  http_header_lookup (http_header_insert headers key val) key'
  = Some (AtData (length (entries headers)))
  /\ load_header (http_header_insert headers key val)
       (AtData (length (entries headers)))
     = Some (_http_header_new key val)
  /\ HEADER_VALUE (_http_header_new key val) = Some val.
Proof.
  intros Hk Heq. split_and!.
  - unfold http_header_lookup, http_header_find_last, http_header_insert.
    cbn [entries set_entries]. unfold g_queue_push_tail.
    rewrite rev_app_distr. cbn [rev app scan_backward hit_slot].
    by rewrite key_hit_new, Heq, length_rev.
  - unfold http_header_insert. cbn [load_header entries set_entries].
    apply g_list_data_push_tail.
  - unfold HEADER_VALUE. fold (header_value (_http_header_new key val)).
    rewrite header_value_new. rewrite decide_True; [done|].
    unfold _http_header_new, g_string_append_len. cbn [keylen data app].
    rewrite !length_app. cbn. lia.
Qed.

(** X1. Insert and look up: after [http_header_insert] of [key] and [val],
    looking up any name without NUL byte that equals [key] up to case gives
    the new header, and its value is [val]: the last header of a name is the
    one that counts. *)
Theorem insert_then_lookup_value headers key val key' :
  nul_free key' ->
  ascii_caseless_eq key' key = true ->
  let headers' := http_header_insert headers key val in
  http_header_lookup headers' key' = Some (AtData (length (entries headers)))
  /\ ((http_header_lookup headers' key' ≫= load_header headers') ≫= HEADER_VALUE)
     = Some val.
Proof.
  intros Hk Heq headers'. subst headers'.
  destruct (lookup_insert_new headers key val key' Hk Heq) as (Hlook & Hload & Hval).
  split; [exact Hlook|]. rewrite Hlook. cbn [mbind option_bind].
  rewrite Hload. cbn [mbind option_bind]. exact Hval.
Qed.

(** X1 for a header stored as "Content-Length" and looked up as
    "content-length", behind an older header of that name. *)
Lemma insert_then_lookup_value_witness :
  let hs := Sample.with_headers [Sample.header "Content-Length" "5"] in
  let hs' := http_header_insert hs (CONST_STR_LEN "Content-Length") (CONST_STR_LEN "7") in
  ((http_header_lookup hs' (CONST_STR_LEN "content-length")
      ≫= load_header hs') ≫= HEADER_VALUE)
  = Some (CONST_STR_LEN "7").
Proof.
  intros hs hs'.
  apply (insert_then_lookup_value hs (CONST_STR_LEN "Content-Length")
           (CONST_STR_LEN "7") (CONST_STR_LEN "content-length"));
    [repeat constructor|reflexivity].
Defined.

(** X2. What an insert does to the finds, for a search name without NUL
    byte: the first match stays the first match, and the new link is found
    first only if there was no match and the name equals the new header's up
    to case; the last match is the new link if the name equals the new
    header's up to case, and is what it was otherwise. *)
Theorem insert_then_find headers key val key' :
  nul_free key' ->
  let headers' := http_header_insert headers key val in
  http_header_find_first headers' key'
  = match http_header_find_first headers key' with
    | Some l => Some l
    | None => if ascii_caseless_eq key' key
              then Some (length (entries headers)) else None
    end
  /\ http_header_find_last headers' key'
     = if ascii_caseless_eq key' key
       then Some (length (entries headers))
       else http_header_find_last headers key'.
Proof.
  intros Hk headers'. subst headers'.
  unfold http_header_find_first, http_header_find_last, http_header_insert.
  cbn [entries set_entries]. unfold g_queue_push_tail. split.
  - rewrite scan_forward_app. cbn [scan_forward hit_slot].
    by rewrite key_hit_new.
  - rewrite rev_app_distr. cbn [rev app scan_backward hit_slot].
    by rewrite key_hit_new, length_rev.
Qed.

(** X2 on a collection that holds Host, for a second Host and for an
    Accept header. *)
Lemma insert_then_find_witness :
  let hs := Sample.with_headers [Sample.header "Host" "a"] in
  http_header_find_first
    (http_header_insert hs (CONST_STR_LEN "HOST") (CONST_STR_LEN "b"))
    (CONST_STR_LEN "host") = Some O
  /\ http_header_find_last
       (http_header_insert hs (CONST_STR_LEN "HOST") (CONST_STR_LEN "b"))
       (CONST_STR_LEN "host") = Some 1%nat
  /\ http_header_find_last
       (http_header_insert hs (CONST_STR_LEN "Accept") (CONST_STR_LEN "b"))
       (CONST_STR_LEN "host") = Some O.
Proof.
  intros hs.
  assert (nul_free (CONST_STR_LEN "host")) as Hk by (repeat constructor).
  destruct (insert_then_find hs (CONST_STR_LEN "HOST") (CONST_STR_LEN "b")
              (CONST_STR_LEN "host") Hk) as [Hf Hl].
  destruct (insert_then_find hs (CONST_STR_LEN "Accept") (CONST_STR_LEN "b")
              (CONST_STR_LEN "host") Hk) as [_ Hl'].
  split_and!; [rewrite Hf|rewrite Hl|rewrite Hl']; reflexivity.
Defined.

(** ** http_header_get_fast *)

Lemma HEADER_VALUE_wf h :
  (keylen h + 2 <= length (data h))%nat -> HEADER_VALUE h = Some (header_value h).
Proof. intros Hlen. unfold HEADER_VALUE. by rewrite decide_True. Qed.

(** The loop of [http_header_get_fast], started at the first match among the
    links [after]: it folds the values of the matches into [dest]. *)
Lemma http_header_get_fast_walk hs key :
  forall after before dest,
    entries hs = before ++ after ->
    Forall (fun h => (keylen h + 2 <= length (data h))%nat) (elements after) ->
    http_header_get_fast_loop hs key
      (scan_forward (key_hit key) after (length before)) dest
    = Some (foldl (fun d v => (if (0 <? length d)%nat
                               then d ++ CONST_STR_LEN ", " else d) ++ v)
              dest
              (map header_value
                 (filter (fun h => key_hit key h = true) (elements after)))).
Proof.
  induction after as [|s rest IH]; intros before dest Hq Hwf.
  - cbn [scan_forward]. by simp http_header_get_fast_loop.
  - assert (entries hs = (before ++ [s]) ++ rest) as Hq'
      by (by rewrite <- app_assoc).
    assert (length (before ++ [s]) = S (length before)) as Hlen
      by (rewrite length_app; cbn; lia).
    cbn [scan_forward]. destruct s as [h|]; cbn [hit_slot].
    + rewrite elements_cons_Some in Hwf |- *.
      apply Forall_cons in Hwf as [Hh Hwf]. rewrite filter_cons.
      destruct (key_hit key h) eqn:Hhit.
      * rewrite decide_True by done. simp http_header_get_fast_loop.
        unfold load_header, g_list_data. rewrite Hq.
        rewrite list_lookup_middle by done. cbn [mjoin option_join].
        rewrite HEADER_VALUE_wf by done. cbv zeta.
        unfold http_header_find_next. rewrite Hq, drop_past_length.
        rewrite <- Hlen. by rewrite (IH (before ++ [Some h]) _ Hq' Hwf).
      * rewrite decide_False by done.
        rewrite <- Hlen. apply (IH (before ++ [Some h]) dest Hq' Hwf).
    + rewrite elements_cons_None in Hwf |- *.
      rewrite <- Hlen. apply (IH (before ++ [None]) dest Hq' Hwf).
Qed.

Lemma fold_values_nonempty sep (d : GString) vs :
  d <> [] ->
  foldl (fun d v => (if (0 <? length d)%nat then d ++ sep else d) ++ v) d vs
  = d ++ concat (map (fun x => sep ++ x) vs).
Proof.
  revert d; induction vs as [|v vs IH]; intros d Hd; cbn [foldl map concat].
  - by rewrite app_nil_r.
  - destruct d as [|c d]; [done|]. cbn [length Nat.ltb Nat.leb].
    rewrite IH by done. by rewrite <- !app_assoc.
Qed.

Lemma fold_values_join sep vs :
  foldl (fun d v => (if (0 <? length d)%nat then d ++ sep else d) ++ v) [] vs
  = join_with sep (skip_empty vs).
Proof.
  induction vs as [|v vs IH]; [done|].
  destruct v as [|c v]; cbn [foldl skip_empty length Nat.ltb Nat.leb app].
  - exact IH.
  - unfold join_with. by apply fold_values_nonempty.
Qed.

(** X3. For a search name without NUL byte and stored headers whose buffers
    hold name, ": " and value, [http_header_get_fast] returns the values of
    the headers of that name in stored order with ", " between them,
    whatever [dest] held before; values that are empty and come before the
    first one that is not leave no trace, not even a separator. *)
Theorem get_fast_joins_values dest headers key :
  nul_free key ->
  Forall (fun h => (keylen h + 2 <= length (data h))%nat) (stored headers) ->
  http_header_get_fast dest headers key
  = Some (join_with (CONST_STR_LEN ", ")
            (skip_empty (map header_value (named key headers)))).
Proof.
  intros Hk Hwf. unfold http_header_get_fast, http_header_find_first.
  rewrite (http_header_get_fast_walk headers key (entries headers) [] _ eq_refl Hwf).
  rewrite fold_values_join. unfold named, stored. do 4 f_equal.
  apply list_filter_iff. intros h. by rewrite key_hit_name_matches.
Qed.

(** X3 on Accept headers with an empty value first. *)
Lemma get_fast_joins_values_witness :
  let hs := Sample.with_headers
              [Sample.header "Accept" ""; Sample.header "Host" "h";
               Sample.header "accept" "a"; Sample.header "ACCEPT" "";
               Sample.header "Accept" "b"] in
  http_header_get_fast (CONST_STR_LEN "old") hs (CONST_STR_LEN "accept")
  = Some (CONST_STR_LEN "a, , b").
Proof.
  intros hs.
  rewrite (get_fast_joins_values (CONST_STR_LEN "old") hs (CONST_STR_LEN "accept"));
    [reflexivity|repeat constructor|].
  repeat apply Forall_cons_2; [..|apply Forall_nil_2]; cbn; lia.
Defined.

(** ** http_header_is *)

Section HeaderIs.
Context `{Platform}.

Lemma gsize_sub_value h :
  header_fits h ->
  gsize_sub (length (data h)) (keylen h + 2) = Z.of_nat (length (header_value h)).
Proof.
  intros [[Hlen _] Hfit]. unfold gsize_sub, header_value.
  rewrite length_drop. rewrite Z.mod_small; lia.
Qed.

Lemma http_header_is_walk hs key val :
  forall after before,
    entries hs = before ++ after ->
    Forall header_fits (elements after) ->
    http_header_is_loop hs key val
      (scan_forward (key_hit key) after (length before))
    = Some (existsb
              (fun h => (length (header_value h) =? length val)%nat
                        && (g_ascii_strcasecmp (header_value h) val =? 0))
              (filter (fun h => key_hit key h = true) (elements after))).
Proof.
  induction after as [|s rest IH]; intros before Hq Hwf.
  - cbn [scan_forward]. by simp http_header_is_loop.
  - assert (entries hs = (before ++ [s]) ++ rest) as Hq'
      by (by rewrite <- app_assoc).
    assert (length (before ++ [s]) = S (length before)) as Hlen
      by (rewrite length_app; cbn; lia).
    cbn [scan_forward]. destruct s as [h|]; cbn [hit_slot].
    + rewrite elements_cons_Some in Hwf |- *.
      apply Forall_cons in Hwf as [Hh Hwf]. rewrite filter_cons.
      destruct (key_hit key h) eqn:Hhit.
      * rewrite decide_True by done. simp http_header_is_loop.
        unfold load_header, g_list_data. rewrite Hq.
        rewrite list_lookup_middle by done. cbn [mjoin option_join].
        rewrite gsize_sub_value by done.
        rewrite HEADER_VALUE_wf by apply Hh.
        unfold http_header_find_next. rewrite Hq, drop_past_length.
        rewrite <- Hlen. rewrite (IH (before ++ [Some h]) Hq' Hwf).
        cbn [existsb].
        destruct (Nat.eqb_spec (length (header_value h)) (length val)) as [He|Hne].
        -- rewrite (proj2 (Z.eqb_eq _ _)) by lia. cbn [negb andb].
           by destruct (g_ascii_strcasecmp (header_value h) val =? 0).
        -- rewrite (proj2 (Z.eqb_neq _ _)) by lia. done.
      * rewrite decide_False by done.
        rewrite <- Hlen. apply (IH (before ++ [Some h]) Hq' Hwf).
    + rewrite elements_cons_None in Hwf |- *.
      rewrite <- Hlen. apply (IH (before ++ [None]) Hq' Hwf).
Qed.

Lemma http_header_is_spec headers key val :
  nul_free key ->
  nul_free val ->
  Forall header_fits (stored headers) ->
  http_header_is headers key val = Some (some_value_is headers key val).
Proof.
  intros Hk Hv Hwf. unfold http_header_is, http_header_find_first.
  pose proof (http_header_is_walk headers key val (entries headers) [] eq_refl Hwf)
    as Hwalk.
  change (length (@nil (option http_header))) with O in Hwalk. rewrite Hwalk.
  f_equal. unfold some_value_is, named. fold (stored headers).
  rewrite (list_filter_iff (fun h => key_hit key h = true)
             (fun h => name_matches key h = true))
    by (intros h; by rewrite key_hit_name_matches).
  assert (Forall header_fits (filter (fun h => name_matches key h = true) (stored headers)))
    as Hsub by (by apply Forall_filter_keeps).
  induction Hsub as [|h l [[Hlen Hnul] _] _ IH]; [done|].
  cbn [existsb]. rewrite IH. f_equal.
  rewrite g_ascii_strcasecmp_caseless; [|by apply nul_free_drop|done].
  destruct (ascii_caseless_eq (header_value h) val) eqn:E; [|by rewrite andb_false_r].
  apply ascii_caseless_eq_length in E. rewrite E, Nat.eqb_refl. done.
Qed.

(** X4. For a name and a value without NUL byte and stored headers that are
    well formed with buffer lengths in [gsize], [http_header_is] returns
    true exactly when some header of that name has a value equal to [val] up
    to the case of letters - the whole value, not one element of a list. *)
Theorem http_header_is_some_value headers key val :
  nul_free key ->
  nul_free val ->
  Forall header_fits (stored headers) ->
  http_header_is headers key val = Some (some_value_is headers key val).
Proof. apply http_header_is_spec. Qed.

End HeaderIs.

(** X4 on a Connection header: "Keep-Alive" is keep-alive, "keep-alive, x"
    is not. *)
Lemma http_header_is_some_value_witness :
  @http_header_is Sample.lp64
    (Sample.with_headers [Sample.header "Connection" "Keep-Alive"])
    (CONST_STR_LEN "connection") (CONST_STR_LEN "keep-alive") = Some true
  /\ @http_header_is Sample.lp64
       (Sample.with_headers [Sample.header "Connection" "keep-alive, x"])
       (CONST_STR_LEN "connection") (CONST_STR_LEN "keep-alive") = Some false.
Proof.
  split.
  - rewrite (@http_header_is_some_value Sample.lp64); [reflexivity|..];
      [repeat constructor|repeat constructor|].
    repeat apply Forall_cons_2; [|apply Forall_nil_2].
    split; [split; [cbn; lia|repeat constructor]|cbn; lia].
  - rewrite (@http_header_is_some_value Sample.lp64); [reflexivity|..];
      [repeat constructor|repeat constructor|].
    repeat apply Forall_cons_2; [|apply Forall_nil_2].
    split; [split; [cbn; lia|repeat constructor]|cbn; lia].
Defined.

(** ** Deleting links and walking on *)

(** X5. Deleting a link of the collection leaves a hole at it and every
    other link with its header; a cursor behind it that is a link of the
    collection stays one, and [http_header_find_next] reports from it what
    it did; and if the deleted link was the first match, the first match is
    now what [http_header_find_next] reported from it before. This is the
    order [http_header_remove] works in: it walks on from the held link
    first and deletes it then. *)
Theorem delete_before_cursor headers key lp :
  live headers lp ->
  let headers' := http_header_remove_link headers lp in
  ~ live headers' lp
  /\ (forall l', l' <> lp -> header_at headers' l' = header_at headers l')
  /\ (forall l, (lp < l)%nat -> live headers l ->
        live headers' l
        /\ http_header_find_next headers' l key
           = http_header_find_next headers l key)
  /\ (http_header_find_first headers key = Some lp ->
      http_header_find_first headers' key = http_header_find_next headers lp key).
Proof.
  intros Hlp headers'. subst headers'.
  unfold live, http_header_find_next, http_header_find_first,
    http_header_remove_link, header_at, g_list_data, g_queue_delete_link in *.
  cbn [entries set_entries].
  assert (lp < length (entries headers))%nat as Hin.
  { apply lookup_lt_is_Some. destruct Hlp as [h Hh].
    destruct (entries headers !! lp) eqn:E; [by eexists|done]. }
  split_and!.
  - rewrite list_lookup_insert_eq by done. by intros [h Hh].
  - intros l' Hne. by rewrite list_lookup_insert_ne.
  - intros l Hlt Hl. split.
    + rewrite list_lookup_insert_ne by lia. done.
    + by rewrite drop_insert_lt by lia.
  - intros Hfirst.
    apply scan_forward_split in Hfirst as (before & a & after & -> & -> & Ha & Hb).
    cbn [plus]. rewrite insert_at_length, drop_past_length.
    rewrite scan_forward_app.
    rewrite (proj2 (scan_forward_None _ before O)) by done.
    cbn [scan_forward hit_slot plus]. done.
Qed.

(** X5 on X:1, Y:2, X:3, X:4: the first X is deleted with the cursor on the
    second X. *)
Lemma delete_before_cursor_witness :
  let hs := Sample.with_headers
              [Sample.header "X" "1"; Sample.header "Y" "2";
               Sample.header "X" "3"; Sample.header "X" "4"] in
  live hs O
  /\ live hs 2%nat
  /\ http_header_find_next (http_header_remove_link hs O) 2%nat (CONST_STR_LEN "X")
     = Some 3%nat
  /\ http_header_find_first (http_header_remove_link hs O) (CONST_STR_LEN "X")
     = Some 2%nat.
Proof.
  intros hs.
  assert (live hs O) as H0 by (eexists; reflexivity).
  assert (live hs 2%nat) as H2 by (eexists; reflexivity).
  split; [exact H0|]. split; [exact H2|].
  destruct (delete_before_cursor hs (CONST_STR_LEN "X") O H0)
    as (_ & _ & Hnext & Hfirst).
  destruct (Hnext 2%nat ltac:(lia) H2) as [_ ->].
  rewrite Hfirst by reflexivity. split; reflexivity.
Defined.

(** ** http_header_remove and the other names *)







(** X7. Insert and remove: for a search name without NUL byte that equals
    [key] up to case, removing it after [http_header_insert] of [key] leaves
    exactly the headers that removing it from the collection before the
    insert leaves, and returns true. *)
Theorem insert_then_remove headers key val key' :
  nul_free key' ->
  ascii_caseless_eq key' key = true ->
  let r := http_header_remove (http_header_insert headers key val) key' in
  stored r.1 = stored (http_header_remove headers key').1
  /\ r.2 = true
  /\ http_header_lookup r.1 key' = None.
Proof.
  intros Hk Heq r. subst r. rewrite !http_header_remove_without. cbn [fst snd].
  unfold stored, http_header_insert, set_entries, g_queue_push_tail,
    http_header_lookup, http_header_find_last.
  cbn [entries]. rewrite map_app. cbn [map].
  rewrite without_hit by (by rewrite key_hit_new).
  split_and!.
  - unfold elements. rewrite omap_app. cbn. by rewrite app_nil_r.
  - rewrite existsb_app. cbn [existsb hit_slot].
    rewrite key_hit_new, Heq by done. by rewrite orb_true_r.
  - rewrite (proj2 (scan_backward_None (key_hit key') _)); [done|].
    apply no_hit_app; [apply without_hits_nothing|].
    by intros [|j].
Qed.

(** X7 on a collection that already holds the name once. *)
Lemma insert_then_remove_witness :
  let hs := Sample.with_headers [Sample.header "X" "1"; Sample.header "Y" "2"] in
  let r := http_header_remove
             (http_header_insert hs (CONST_STR_LEN "X") (CONST_STR_LEN "3"))
             (CONST_STR_LEN "x") in
  stored r.1 = [_http_header_new (CONST_STR_LEN "Y") (CONST_STR_LEN "2")]
  /\ r.2 = true.
Proof.
  intros hs.
  destruct (insert_then_remove hs (CONST_STR_LEN "X") (CONST_STR_LEN "3")
              (CONST_STR_LEN "x")) as (Hstored & Hres & _);
    [repeat constructor|reflexivity|].
  cbv zeta in Hstored, Hres |- *.
  split; [rewrite Hstored; reflexivity|exact Hres].
Defined.

(** * Further properties of the reference count *)

Lemma set_refcount_same hs n : n = refcount hs -> set_refcount hs n = hs.
Proof. intros ->. by destruct hs. Qed.

Lemma gint_wrap_small x : - 2 ^ 31 <= x <= G_MAXINT -> gint_wrap x = x.
Proof.
  unfold gint_wrap, G_MAXINT. intros Hx. rewrite Z.mod_small; lia.
Qed.

(** With other owners left, [http_headers_try_reset] takes one from the
    count and allocates. *)
Lemma http_headers_try_reset_shared (hp : heap) a hs :
  hp !! a = Some (Some hs) ->
  1 < refcount hs ->
  http_headers_try_reset hp a
  = Some (<[a := Some (set_refcount hs (refcount hs - 1))]> hp
            ++ [Some {| refcount := 1; entries := [] |}],
          length hp).
Proof.
  intros Ha Hrc. unfold http_headers_try_reset. rewrite Ha.
  rewrite decide_True by lia. rewrite decide_False by lia.
  unfold http_headers_new, g_slice_new0. by rewrite length_insert.
Qed.

(** X8. Acquire and release: on a live collection whose count is positive
    and below the largest [gint], [http_headers_acquire] adds one to the
    count and touches nothing else, and [http_headers_release] after it
    gives back the heap as it was. *)
Theorem acquire_then_release (hp : heap) a hs :
  hp !! a = Some (Some hs) ->
  0 < refcount hs < G_MAXINT ->
  exists hp1,
    http_headers_acquire hp a = Some hp1
    /\ hp1 = <[a := Some (set_refcount hs (refcount hs + 1))]> hp
    /\ http_headers_release hp1 (Some a) = Some hp.
Proof.
  intros Ha Hrc. pose proof (lookup_lt_Some _ _ _ Ha) as Hlt.
  unfold http_headers_acquire. rewrite Ha. rewrite decide_True by lia.
  rewrite gint_wrap_small by (unfold G_MAXINT in *; lia).
  eexists. split; [reflexivity|]. split; [reflexivity|].
  unfold http_headers_release. rewrite list_lookup_insert_eq by done.
  cbn [refcount set_refcount]. rewrite decide_True by lia.
  rewrite decide_False by lia. rewrite list_insert_insert_eq.
  rewrite list_insert_id; [done|]. rewrite Ha. do 2 f_equal.
  unfold set_refcount. cbn [refcount entries]. destruct hs as [rc q]. cbn.
  f_equal. lia.
Qed.

Lemma acquire_then_release_witness :
  let hs := Sample.with_headers [Sample.header "X" "a"] in
  exists hp1,
    http_headers_acquire [Some hs] O = Some hp1
    /\ http_headers_release hp1 (Some O) = Some [Some hs].
Proof.
  intros hs.
  destruct (acquire_then_release [Some hs] O hs) as (hp1 & Hacq & _ & Hrel);
    [reflexivity|unfold G_MAXINT; cbn; lia|].
  exists hp1. split; [exact Hacq|exact Hrel].
Defined.

(** X9. Releasing the last reference frees the collection and nothing else;
    after that every use of the address - acquire, release or try_reset - is
    undefined. *)
Theorem release_last_reference (hp : heap) a hs :
  hp !! a = Some (Some hs) ->
  refcount hs = 1 ->
  exists hp',
    http_headers_release hp (Some a) = Some hp'
    /\ hp' !! a = Some None
    /\ (forall b, b <> a -> hp' !! b = hp !! b)
    /\ http_headers_acquire hp' a = None
    /\ http_headers_release hp' (Some a) = None
    /\ http_headers_try_reset hp' a = None.
Proof.
  intros Ha Hrc. pose proof (lookup_lt_Some _ _ _ Ha) as Hlt.
  unfold http_headers_release at 1. rewrite Ha. rewrite decide_True by lia.
  rewrite decide_True by lia. eexists. split; [reflexivity|].
  assert ((<[a := None]> hp) !! a = Some None) as Hfreed
    by (by rewrite list_lookup_insert_eq).
  split_and!.
  - exact Hfreed.
  - intros b Hb. by rewrite list_lookup_insert_ne.
  - unfold http_headers_acquire. by rewrite Hfreed.
  - unfold http_headers_release. by rewrite Hfreed.
  - unfold http_headers_try_reset. by rewrite Hfreed.
Qed.

Lemma release_last_reference_witness :
  let hs := Sample.with_headers [Sample.header "X" "a"] in
  http_headers_release [Some hs] (Some O) = Some [None]
  /\ http_headers_release [None] (Some O) = None.
Proof.
  intros hs.
  destruct (release_last_reference [Some hs] O hs)
    as (hp' & Hrel & _ & _ & _ & Hagain & _); [reflexivity|reflexivity|].
  assert (hp' = [None]) as -> by (vm_compute in Hrel; congruence).
  split; [exact Hrel|exact Hagain].
Defined.

Lemma acquire_then_release_steps (hp : heap) a hs :
  hp !! a = Some (Some hs) ->
  refcount hs = 1 ->
  exists hp1,
    http_headers_acquire hp a = Some hp1
    /\ hp1 !! a = Some (Some (set_refcount hs 2))
    /\ length hp1 = length hp.
Proof.
  intros Ha Hrc. pose proof (lookup_lt_Some _ _ _ Ha) as Hlt.
  unfold http_headers_acquire. rewrite Ha. rewrite decide_True by lia.
  rewrite Hrc. eexists. split; [reflexivity|].
  rewrite list_lookup_insert_eq by done. by rewrite length_insert.
Qed.

(** X10. A snapshot outlives the reuse of the connection: when a second
    owner has acquired a collection that had one owner,
    [http_headers_try_reset] hands out another, empty collection and leaves
    the old one with its entries and one owner; when that owner releases it,
    the old collection is freed and the new one is untouched. *)
Theorem snapshot_survives_try_reset (hp : heap) a hs :
  hp !! a = Some (Some hs) ->
  refcount hs = 1 ->
  exists hp1 hp2 b hp3,
    http_headers_acquire hp a = Some hp1
    /\ http_headers_try_reset hp1 a = Some (hp2, b)
    /\ b <> a
    /\ hp !! b = None
    /\ hp2 !! a = Some (Some hs)
    /\ hp2 !! b = Some (Some {| refcount := 1; entries := [] |})
    /\ http_headers_release hp2 (Some a) = Some hp3
    /\ hp3 !! a = Some None
    /\ hp3 !! b = Some (Some {| refcount := 1; entries := [] |}).
Proof.
  intros Ha Hrc. pose proof (lookup_lt_Some _ _ _ Ha) as Hlt.
  destruct (acquire_then_release_steps hp a hs Ha Hrc)
    as (hp1 & Hacq & Hhp1 & Hlen1).
  exists hp1.
  rewrite (http_headers_try_reset_shared hp1 a (set_refcount hs 2) Hhp1)
    by (cbn; lia).
  replace (set_refcount (set_refcount hs 2) (refcount (set_refcount hs 2) - 1))
    with hs by (destruct hs as [rc q]; cbn in *; by subst rc).
  rewrite Hlen1.
  eexists _, (length hp), _. split; [exact Hacq|]. split; [reflexivity|].
  assert ((<[a := Some hs]> hp1) !! a = Some (Some hs)) as Hold
    by (rewrite list_lookup_insert_eq by lia; done).
  split_and!.
  - lia.
  - apply lookup_ge_None_2. lia.
  - rewrite lookup_app_l by (rewrite length_insert; lia). exact Hold.
  - rewrite lookup_app_r by (rewrite length_insert; lia).
    by rewrite length_insert, Hlen1, Nat.sub_diag.
  - unfold http_headers_release.
    rewrite lookup_app_l by (rewrite length_insert; lia). rewrite Hold.
    rewrite decide_True by lia. rewrite decide_True by lia. reflexivity.
  - rewrite list_lookup_insert_eq; [done|].
    rewrite length_app, length_insert. lia.
  - rewrite list_lookup_insert_ne by lia.
    rewrite lookup_app_r by (rewrite length_insert; lia).
    by rewrite length_insert, Hlen1, Nat.sub_diag.
Qed.

Lemma snapshot_survives_try_reset_witness :
  let hs := Sample.with_headers [Sample.header "X" "a"] in
  exists hp1 hp2 b,
    http_headers_acquire [Some hs] O = Some hp1
    /\ http_headers_try_reset hp1 O = Some (hp2, b)
    /\ hp2 !! O = Some (Some hs)
    /\ http_headers_release hp2 (Some O)
       = Some [None; Some {| refcount := 1; entries := [] |}].
Proof.
  intros hs.
  destruct (snapshot_survives_try_reset [Some hs] O hs)
    as (hp1 & hp2 & b & hp3 & Hacq & Hreset & _ & _ & Hold & _ & Hrel & _);
    [reflexivity|reflexivity|].
  exists hp1, hp2, b. split_and!; [exact Hacq|exact Hreset|exact Hold|].
  vm_compute in Hacq. injection Hacq as <-.
  vm_compute in Hreset. injection Hreset as <- <-.
  reflexivity.
Defined.

(** * Further properties of request.c *)

(** X11. [request_reset] on a request whose collection has other owners:
    the request comes back in the initial state on a collection of its own,
    at an address that was not in use, and the old collection keeps its
    entries for the other owners, with one owner less. *)
Theorem request_reset_shared_collection (hp : heap) req hs :
  hp !! headers req = Some (Some hs) ->
  1 < refcount hs ->
  exists hp' req',
    request_reset hp req = Some (hp', req')
    /\ initial_state hp' req'
    /\ headers req' <> headers req
    /\ hp !! headers req' = None
    /\ hp' !! headers req
       = Some (Some {| refcount := refcount hs - 1; entries := entries hs |}).
Proof.
  intros Hhs Hrc. pose proof (lookup_lt_Some _ _ _ Hhs) as Hlt.
  unfold request_reset.
  rewrite (http_headers_try_reset_shared hp (headers req) hs) by done.
  eexists _, _. split; [reflexivity|].
  unfold initial_state.
  cbn [fst snd http_method http_version http_method_str uri raw scheme
       authority path query host content_length headers].
  split_and!; try reflexivity.
  - rewrite lookup_app_r by (rewrite length_insert; lia).
    by rewrite length_insert, Nat.sub_diag.
  - lia.
  - apply lookup_ge_None_2. lia.
  - rewrite lookup_app_l by (rewrite length_insert; lia).
    by rewrite list_lookup_insert_eq.
Qed.

Lemma request_reset_shared_collection_witness :
  let hs := set_refcount (Sample.with_headers [Sample.header "Host" "h"]) 2 in
  let req := Sample.request_of HTTP_METHOD_GET HTTP_VERSION_1_1 in
  exists hp' req',
    request_reset [Some hs] req = Some (hp', req')
    /\ initial_state hp' req'
    /\ hp' !! O = Some (Some (set_refcount hs 1)).
Proof.
  intros hs req.
  destruct (request_reset_shared_collection [Some hs] req hs)
    as (hp' & req' & Hreset & Hinit & _ & _ & Hold); [reflexivity|cbn; lia|].
  exists hp', req'. split_and!; [exact Hreset|exact Hinit|exact Hold].
Defined.

(** ** Every way out of the validator *)

Ltac in_statuses := rewrite !elem_of_cons; auto 10.

Section Exits.
Context `{Platform} `{Collaborators}.

Lemma reject_shape con status con' s :
  reject con status = Rejected s con' ->
  s = status
  /\ exists c, con' = connection_handle_direct c
               /\ keep_alive c = false /\ response_http_status c = s.
Proof.
  unfold reject, bad_request. intros [= <- <-]. split; [done|].
  eexists. split; [reflexivity|]. done.
Qed.

Ltac by_reject :=
  let Hr := fresh "Hr" in
  let Hs := fresh "Hs" in
  let Hc := fresh "Hc" in
  intros Hr; apply reject_shape in Hr as [Hs Hc]; subst;
  split; [in_statuses|exact Hc].

(** Each check leaves through [bad_request] with one of five statuses. *)
Lemma checks_reject_through_bad_request errno hs :
  Forall (fun check =>
            forall con s con',
              check con = Rejected s con' ->
              s ∈ rejection_statuses
              /\ exists c, con' = connection_handle_direct c
                           /\ keep_alive c = false /\ response_http_status c = s)
         (checks errno hs).
Proof.
  unfold checks, rejection_statuses.
  repeat apply Forall_cons_2; [..|apply Forall_nil_2]; intros con s con'.
  - unfold check_version. destruct (http_version (con_request con)).
    + by_reject.
    + by destruct (http_header_is _ _ _).
    + by destruct (http_header_is _ _ _).
  - unfold check_raw_uri. destruct (_ =? _)%nat; [|done].
    by_reject.
  - unfold get_hostname.
    destruct (http_header_find_first hs _) as [l|]; cbn.
    + destruct (bool_decide _).
      { by_reject. }
      destruct (g_list_data _ l) as [hh|]; [|done].
      destruct (HEADER_VALUE hh) as [v|]; [|done].
      destruct (parse_hostname _) as [[] u]; cbn [negb]; [done|].
      by_reject.
    + done.
  - unfold need_hostname. destruct (_ && _); [|done].
    by_reject.
  - unfold may_override_hostname. destruct (request_parse_url con) as [[] c]; cbn [negb];
      [done|].
    by_reject.
  - unfold content_length_header.
    destruct (http_header_lookup _ _) as [hh|]; [|done].
    destruct (load_header hs hh) as [hv|]; [|done].
    destruct (HEADER_VALUE hv) as [val|]; [|done].
    destruct (str_to_off_t errno val) as [[r err] e].
    destruct (negb (is_nul (peek err))).
    { by_reject. }
    destruct (r <? 0).
    { by_reject. }
    destruct (_ && _); [|done].
    by_reject.
  - unfold expect_100_continue.
    destruct (http_header_find_first hs _) as [l|]; [|done].
    destruct (expect_loop hs _ _) as [flag| |]; [| |done].
    + destruct (_ && _); [|done].
      by_reject.
    + by_reject.
  - unfold method_policy.
    destruct (http_method (con_request con)); try done.
    + destruct (0 <? _); [|done].
      by_reject.
    + destruct (_ =? _); [|done].
      by_reject.
    + destruct (0 <? _); [|done].
      by_reject.
Qed.

Lemma run_rejected (P : Z -> connection -> Prop) cs :
  Forall (fun check => forall con s con', check con = Rejected s con' -> P s con') cs ->
  forall con s con', run cs con = Rejected s con' -> P s con'.
Proof.
  induction 1 as [|c cs Hc _ IH]; intros con s con'; cbn [run]; [done|].
  destruct (c con) as [c1| |] eqn:E; [apply IH| |done].
  intros [= <- <-]. by eapply Hc.
Qed.

End Exits.

(** X12. Whenever [request_validate_header] rejects, the status is one of
    505, 400, 413, 417 and 411, and the connection was handed to
    [connection_handle_direct] with keep-alive off and that status
    recorded. *)
Theorem rejection_closes_connection `{Platform} `{Collaborators}
  errno (hp : heap) con status con' :
  request_validate_header errno hp con = Rejected status con' ->
  status ∈ rejection_statuses
  /\ exists c, con' = connection_handle_direct c
               /\ keep_alive c = false
               /\ response_http_status c = status.
Proof.
  unfold request_validate_header.
  destruct (hp !! headers (con_request con)) as [[hs|]|]; [|done|done].
  apply (run_rejected
           (fun s con' => s ∈ rejection_statuses
              /\ exists c, con' = connection_handle_direct c
                           /\ keep_alive c = false /\ response_http_status c = s)).
  apply checks_reject_through_bad_request.
Qed.

(** X12 on a POST without Content-Length. *)
Lemma rejection_closes_connection_witness :
  exists con',
    @request_validate_header Sample.lp64 Sample.lenient 0
      [Some (Sample.with_headers [Sample.header "Host" "h"])]
      (Sample.connection_of HTTP_METHOD_POST HTTP_VERSION_1_1)
    = Rejected 411 con'
    /\ keep_alive con' = false /\ response_http_status con' = 411.
Proof.
  eexists. split; [reflexivity|].
  destruct (@rejection_closes_connection Sample.lp64 Sample.lenient 0
              [Some (Sample.with_headers [Sample.header "Host" "h"])]
              (Sample.connection_of HTTP_METHOD_POST HTTP_VERSION_1_1)
              411 _ eq_refl) as (_ & c & Hc & Hka & Hst).
  cbn in Hc. subst c. split; [exact Hka|exact Hst].
Defined.

(** ** What an accepted request went through *)

Lemma elements_app {A} (q1 q2 : GQueue A) :
  elements (q1 ++ q2) = elements q1 ++ elements q2.
Proof. unfold elements. apply omap_app. Qed.

Section Accepted.
Context `{Platform} `{Collaborators}.

Lemma accepted_checks errno hs con con' :
  run (checks errno hs) con = Accepted con' ->
  exists c1 c2 c3 c4 c5 c6 c7,
    check_version hs con = Accepted c1
    /\ check_raw_uri c1 = Accepted c2
    /\ get_hostname hs c2 = Accepted c3
    /\ need_hostname c3 = Accepted c4
    /\ may_override_hostname c4 = Accepted c5
    /\ content_length_header errno hs c5 = Accepted c6
    /\ expect_100_continue hs c6 = Accepted c7
    /\ method_policy c7 = Accepted con'.
Proof.
  unfold checks. cbn [run].
  destruct (check_version hs con) as [c1| |] eqn:E1; [|done|done].
  destruct (check_raw_uri c1) as [c2| |] eqn:E2; [|done|done].
  destruct (get_hostname hs c2) as [c3| |] eqn:E3; [|done|done].
  destruct (need_hostname c3) as [c4| |] eqn:E4; [|done|done].
  destruct (may_override_hostname c4) as [c5| |] eqn:E5; [|done|done].
  destruct (content_length_header errno hs c5) as [c6| |] eqn:E6; [|done|done].
  destruct (expect_100_continue hs c6) as [c7| |] eqn:E7; [|done|done].
  destruct (method_policy c7) as [c8| |] eqn:E8; [|done|done].
  intros [= <-]. by exists c1, c2, c3, c4, c5, c6, c7.
Qed.

(** The version check only ever turns keep-alive off. *)
Lemma check_version_keep_alive hs con c1 :
  Forall header_fits (stored hs) ->
  check_version hs con = Accepted c1 ->
  keep_alive c1
  = keep_alive con
    && match http_version (con_request con) with
       | HTTP_VERSION_1_0 =>
           some_value_is hs (CONST_STR_LEN "connection") (CONST_STR_LEN "keep-alive")
       | HTTP_VERSION_1_1 =>
           negb (some_value_is hs (CONST_STR_LEN "connection") (CONST_STR_LEN "close"))
       | HTTP_VERSION_UNSET => false
       end
  /\ expect_100_cont c1 = expect_100_cont con
  /\ http_version (con_request con) <> HTTP_VERSION_UNSET.
Proof.
  intros Hfit. unfold check_version.
  destruct (http_version (con_request con)); [done| |].
  - rewrite http_header_is_spec; [|repeat constructor..|done].
    destruct (some_value_is _ _ _); intros [= <-]; cbn;
      by rewrite ?andb_true_r, ?andb_false_r.
  - rewrite http_header_is_spec; [|repeat constructor..|done].
    destruct (some_value_is _ _ _); intros [= <-]; cbn;
      by rewrite ?andb_true_r, ?andb_false_r.
Qed.

Lemma get_hostname_frame hs con c1 :
  get_hostname hs con = Accepted c1 ->
  keep_alive c1 = keep_alive con /\ expect_100_cont c1 = expect_100_cont con.
Proof.
  unfold get_hostname.
  destruct (http_header_find_first hs _) as [l|]; [|done].
  destruct (bool_decide _); [done|].
  destruct (load_header hs _) as [hh|]; [|done].
  destruct (HEADER_VALUE hh) as [v|]; [|done].
  destruct (parse_hostname _) as [[] u]; [|done].
  by intros [= <-].
Qed.

Lemma may_override_hostname_frame con c1 :
  may_override_hostname con = Accepted c1 ->
  keep_alive c1 = keep_alive con /\ expect_100_cont c1 = expect_100_cont con.
Proof.
  unfold may_override_hostname, request_parse_url.
  destruct (parse_raw_url _) as [[] u]; cbn [negb]; [|done].
  destruct (_ && _); cbn [negb]; [done|]. by intros [= <-].
Qed.

Lemma content_length_header_frame errno hs con c1 :
  content_length_header errno hs con = Accepted c1 ->
  keep_alive c1 = keep_alive con
  /\ expect_100_cont c1 = expect_100_cont con
  /\ http_version (con_request c1) = http_version (con_request con).
Proof.
  unfold content_length_header.
  destruct (http_header_lookup _ _) as [hh|]; [|by intros [= <-]].
  destruct (load_header hs hh) as [hv|]; [|done].
  destruct (HEADER_VALUE hv) as [val|]; [|done].
  destruct (str_to_off_t errno val) as [[r err] e].
  destruct (negb (is_nul (peek err))); [done|].
  destruct (r <? 0); [done|].
  destruct (_ && _); [done|]. by intros [= <-].
Qed.

Lemma expect_100_continue_keep_alive hs con c1 :
  expect_100_continue hs con = Accepted c1 -> keep_alive c1 = keep_alive con.
Proof.
  unfold expect_100_continue.
  destruct (http_header_find_first hs _) as [l|]; [|by intros [= <-]].
  destruct (expect_loop hs _ _) as [flag| |]; [|done|done].
  destruct (_ && _); [done|]. by intros [= <-].
Qed.

Lemma method_policy_keep_alive con c1 :
  method_policy con = Accepted c1 -> keep_alive c1 = keep_alive con.
Proof.
  unfold method_policy.
  destruct (http_method (con_request con));
    repeat match goal with
           | |- context [if ?b then _ else _] => destruct b
           end; try done; by intros [= <-].
Qed.

(** A request passes the Host check only with one Host header. *)
Lemma get_hostname_one_host hs con c1 :
  get_hostname hs con = Accepted c1 ->
  exists h, named (CONST_STR_LEN "host") hs = [h].
Proof.
  unfold get_hostname.
  destruct (http_header_find_first hs _) as [l|] eqn:Hfirst; [|done].
  destruct (http_header_find_next hs l _) as [l2|] eqn:Hnext.
  { by rewrite bool_decide_eq_true_2. }
  intros _. unfold http_header_find_first in Hfirst.
  apply scan_forward_split in Hfirst as (before & a & after & Hq & -> & Ha & Hb).
  unfold http_header_find_next in Hnext. rewrite Hq in Hnext.
  cbn [plus] in Hnext. rewrite drop_past_length in Hnext.
  pose proof (proj1 (scan_forward_None _ _ _) Hnext) as Hafter.
  exists a. unfold named, stored.
  rewrite (list_filter_iff _ (fun h => key_hit (CONST_STR_LEN "host") h = true))
    by (intros h; rewrite key_hit_name_matches; [done|repeat constructor]).
  rewrite Hq, elements_app, elements_cons_Some.
  rewrite filter_app, filter_cons. rewrite decide_True by done.
  by rewrite !filter_no_hit.
Qed.

End Accepted.

(** X13. For stored headers that are well formed with buffer lengths in
    [gsize]: on an accepted request keep-alive is on only if it was on
    before and, under HTTP/1.0, some Connection header has the value
    "keep-alive", or, under HTTP/1.1, no Connection header has the value
    "close" (whole values, up to case). The validator never turns
    keep-alive on. *)
Theorem keep_alive_only_turned_off `{Platform} `{Collaborators}
  errno (hp : heap) con hs con' :
  hp !! headers (con_request con) = Some (Some hs) ->
  Forall header_fits (stored hs) ->
  request_validate_header errno hp con = Accepted con' ->
  keep_alive con'
  = keep_alive con
    && match http_version (con_request con) with
       | HTTP_VERSION_1_0 =>
           some_value_is hs (CONST_STR_LEN "connection") (CONST_STR_LEN "keep-alive")
       | HTTP_VERSION_1_1 =>
           negb (some_value_is hs (CONST_STR_LEN "connection") (CONST_STR_LEN "close"))
       | HTTP_VERSION_UNSET => false
       end.
Proof.
  intros Hhs Hfit. unfold request_validate_header. rewrite Hhs.
  intros (c1 & c2 & c3 & c4 & c5 & c6 & c7 & E1 & E2 & E3 & E4 & E5 & E6 & E7 & E8)
    %accepted_checks.
  apply check_version_keep_alive in E1 as (Hka & _ & _); [|done].
  apply check_raw_uri_accepted in E2. apply get_hostname_frame in E3 as [K3 _].
  apply need_hostname_accepted in E4.
  apply may_override_hostname_frame in E5 as [K5 _].
  apply content_length_header_frame in E6 as (K6 & _ & _).
  apply expect_100_continue_keep_alive in E7.
  apply method_policy_keep_alive in E8. subst c2 c4.
  by rewrite E8, E7, K6, K5, K3, Hka.
Qed.

(** X13 on HTTP/1.0 with "Connection: Keep-Alive" and on HTTP/1.1 with
    "Connection: close". *)
Lemma keep_alive_only_turned_off_witness :
  (exists con',
     @request_validate_header Sample.lp64 Sample.lenient 0
       [Some (Sample.with_headers
                [Sample.header "Host" "h"; Sample.header "Connection" "Keep-Alive"])]
       (Sample.connection_of HTTP_METHOD_GET HTTP_VERSION_1_0)
     = Accepted con' /\ keep_alive con' = true)
  /\ (exists con',
        @request_validate_header Sample.lp64 Sample.lenient 0
          [Some (Sample.with_headers
                   [Sample.header "Host" "h"; Sample.header "Connection" "close"])]
          (Sample.connection_of HTTP_METHOD_GET HTTP_VERSION_1_1)
        = Accepted con' /\ keep_alive con' = false).
Proof.
  split; eexists; (split; [reflexivity|]).
  - rewrite (@keep_alive_only_turned_off Sample.lp64 Sample.lenient 0
               [Some (Sample.with_headers
                        [Sample.header "Host" "h";
                         Sample.header "Connection" "Keep-Alive"])]
               (Sample.connection_of HTTP_METHOD_GET HTTP_VERSION_1_0)
               (Sample.with_headers
                  [Sample.header "Host" "h"; Sample.header "Connection" "Keep-Alive"])
               _ eq_refl); [reflexivity| |reflexivity].
    repeat apply Forall_cons_2; [..|apply Forall_nil_2];
      (split; [split; [cbn; lia|repeat constructor]|cbn; lia]).
  - rewrite (@keep_alive_only_turned_off Sample.lp64 Sample.lenient 0
               [Some (Sample.with_headers
                        [Sample.header "Host" "h";
                         Sample.header "Connection" "close"])]
               (Sample.connection_of HTTP_METHOD_GET HTTP_VERSION_1_1)
               (Sample.with_headers
                  [Sample.header "Host" "h"; Sample.header "Connection" "close"])
               _ eq_refl); [reflexivity| |reflexivity].
    repeat apply Forall_cons_2; [..|apply Forall_nil_2];
      (split; [split; [cbn; lia|repeat constructor]|cbn; lia]).
Defined.

(** ** Names with one, two or a last header *)

Lemma filter_nil_Forall {A} (P : A -> Prop) `{!forall x, Decision (P x)} (l : list A) :
  filter P l = [] -> Forall (fun x => ~ P x) l.
Proof.
  induction l as [|x l IH]; [constructor|]. rewrite filter_cons.
  destruct (decide (P x)); [done|]. intros Hl. constructor; [done|by apply IH].
Qed.

Lemma no_hit_filter {A} (hit : A -> bool) (q : GQueue A) :
  filter (fun a => hit a = true) (elements q) = [] ->
  forall j, hit_slot hit (g_list_data q j) = false.
Proof.
  intros Hnil%filter_nil_Forall. apply no_hit_elements.
  eapply Forall_impl; [exact Hnil|]. intros a Ha. by apply not_true_is_false.
Qed.

Lemma named_key_hit key hs :
  nul_free key ->
  named key hs = filter (fun h => key_hit key h = true) (elements (entries hs)).
Proof.
  intros Hk. unfold named, stored. apply list_filter_iff. intros h.
  by rewrite key_hit_name_matches.
Qed.

(** Two headers of a name: the first is found, and another after it. *)
Lemma two_named key hs :
  nul_free key ->
  (2 <= length (named key hs))%nat ->
  exists l l2,
    http_header_find_first hs key = Some l
    /\ http_header_find_next hs l key = Some l2.
Proof.
  intros Hk. rewrite named_key_hit by done.
  unfold http_header_find_first, http_header_find_next.
  destruct (scan_forward (key_hit key) (entries hs) O) as [l|] eqn:Hfirst.
  - apply scan_forward_split in Hfirst as (before & a & after & Hq & -> & Ha & Hb).
    rewrite Hq, elements_app, elements_cons_Some, filter_app, filter_cons.
    rewrite decide_True by done. rewrite filter_no_hit by done.
    cbn [app length plus]. intros Hlen.
    exists (length before). rewrite drop_past_length.
    destruct (scan_forward (key_hit key) after (S (length before))) as [l2|] eqn:Hnext;
      [by eauto|].
    pose proof (proj1 (scan_forward_None _ _ _) Hnext) as Hafter.
    rewrite filter_no_hit in Hlen by done. cbn in Hlen. lia.
  - pose proof (proj1 (scan_forward_None _ _ _) Hfirst) as Hnone.
    rewrite filter_no_hit by done. cbn. lia.
Qed.

(** One header of a name: it is found first, and nothing after it. *)
Lemma one_named key hs h :
  nul_free key ->
  named key hs = [h] ->
  exists l,
    http_header_find_first hs key = Some l
    /\ http_header_find_next hs l key = None
    /\ header_at hs l = Some h.
Proof.
  intros Hk. rewrite named_key_hit by done.
  unfold http_header_find_first, http_header_find_next, header_at.
  destruct (scan_forward (key_hit key) (entries hs) O) as [l|] eqn:Hfirst.
  - apply scan_forward_split in Hfirst as (before & a & after & Hq & -> & Ha & Hb).
    rewrite Hq, elements_app, elements_cons_Some, filter_app, filter_cons.
    rewrite decide_True by done. rewrite filter_no_hit by done.
    cbn [app plus]. intros [= -> Hafter].
    exists (length before). rewrite drop_past_length. split_and!; [done| |].
    + apply (proj2 (scan_forward_None _ _ _)). by apply no_hit_filter.
    + unfold g_list_data. by rewrite list_lookup_middle.
  - pose proof (proj1 (scan_forward_None _ _ _) Hfirst) as Hnone.
    by rewrite filter_no_hit.
Qed.

(** The last header of a name is the one [http_header_find_last] finds. *)
Lemma last_named key hs h :
  nul_free key ->
  last (named key hs) = Some h ->
  exists l, http_header_find_last hs key = Some l /\ header_at hs l = Some h.
Proof.
  intros Hk. rewrite named_key_hit by done.
  unfold http_header_find_last, header_at. generalize (entries hs). clear hs.
  intros q. induction q as [|s q IH] using rev_ind; [done|].
  rewrite elements_app, filter_app, rev_app_distr.
  cbn [rev app scan_backward]. rewrite length_rev.
  destruct s as [a|]; cbn [hit_slot].
  - rewrite elements_cons_Some. change (elements []) with (@nil http_header).
    rewrite filter_cons, filter_nil.
    destruct (key_hit key a) eqn:Ha.
    + rewrite decide_True by done. rewrite last_snoc. intros [= ->].
      exists (length q). split; [done|].
      unfold g_list_data. by rewrite list_lookup_middle.
    + rewrite decide_False by done. rewrite app_nil_r.
      intros (l & Hl & Hat)%IH. exists l. split; [done|].
      assert (l < length q)%nat as Hlt.
      { unfold g_list_data in Hat. destruct (q !! l) eqn:E; [|done].
        by eapply lookup_lt_Some. }
      unfold g_list_data in *. by rewrite lookup_app_l.
  - rewrite elements_cons_None. change (elements []) with (@nil http_header).
    rewrite filter_nil, app_nil_r.
    intros (l & Hl & Hat)%IH. exists l. split; [done|].
    assert (l < length q)%nat as Hlt.
    { unfold g_list_data in Hat. destruct (q !! l) eqn:E; [|done].
      by eapply lookup_lt_Some. }
    unfold g_list_data in *. by rewrite lookup_app_l.
Qed.

(** ** The Host header *)

(** X14. A request that passes the version and the URI checks and stores
    two or more headers named Host is rejected with 400, whatever their
    values. *)
Theorem duplicate_host_rejected `{Platform} `{Collaborators}
  errno (hp : heap) con hs con2 :
  reaches errno hp con 2 hs con2 ->
  (2 <= length (named (CONST_STR_LEN "host") hs))%nat ->
  request_validate_header errno hp con = reject con2 400.
Proof.
  intros Hreach Htwo.
  rewrite (validate_from errno hp con 2 hs con2) by done.
  unfold checks. cbn [drop run].
  apply two_named in Htwo as (l & l2 & Hfirst & Hnext); [|repeat constructor].
  by rewrite (get_hostname_duplicate hs con2 l l2).
Qed.

Lemma duplicate_host_rejected_witness :
  exists con',
    @request_validate_header Sample.lp64 Sample.lenient 0
      [Some (Sample.with_headers
               [Sample.header "Host" "a"; Sample.header "Accept" "x";
                Sample.header "HOST" "a"])]
      (Sample.connection_of HTTP_METHOD_GET HTTP_VERSION_1_1)
    = Rejected 400 con'.
Proof.
  eexists.
  rewrite (@duplicate_host_rejected Sample.lp64 Sample.lenient 0
             [Some (Sample.with_headers
                      [Sample.header "Host" "a"; Sample.header "Accept" "x";
                       Sample.header "HOST" "a"])]
             (Sample.connection_of HTTP_METHOD_GET HTTP_VERSION_1_1)
             (Sample.with_headers
                [Sample.header "Host" "a"; Sample.header "Accept" "x";
                 Sample.header "HOST" "a"])
             (Sample.connection_of HTTP_METHOD_GET HTTP_VERSION_1_1));
    [reflexivity|split; reflexivity|vm_compute; lia].
Defined.

(** X15. A request that passes the version and the URI checks and stores
    exactly one header named Host, with name, ": " and value in its buffer:
    the value is appended to the authority and the hostname parser is run on
    the URI; if it fails the request is rejected with 400 on the URI it
    left, and if it succeeds validation goes on from the next check with
    that URI. *)
Theorem single_host_sets_authority `{Platform} `{Collaborators}
  errno (hp : heap) con hs con2 h :
  reaches errno hp con 2 hs con2 ->
  named (CONST_STR_LEN "host") hs = [h] ->
  (keylen h + 2 <= length (data h))%nat ->
  let req := con_request con2 in
  let parsed :=
    parse_hostname
      (set_authority (uri req) (authority (uri req) ++ header_value h)) in
  let con3 := set_request con2 (set_uri req parsed.2) in
  request_validate_header errno hp con
  = if parsed.1 then run (drop 3 (checks errno hs)) con3 else reject con3 400.
Proof.
  intros Hreach Hone Hlen req parsed con3.
  rewrite (validate_from errno hp con 2 hs con2) by done.
  unfold checks. cbn [drop run].
  apply one_named in Hone as (l & Hfirst & Hnext & Hat); [|repeat constructor].
  rewrite (get_hostname_single hs con2 l h Hfirst Hnext Hat Hlen).
  cbv zeta. fold req. fold parsed. fold con3. by destruct (parsed.1).
Qed.

Lemma single_host_sets_authority_witness :
  exists con',
    @request_validate_header Sample.lp64 Sample.lenient 0
      [Some (Sample.with_headers [Sample.header "Host" "example.org"])]
      (Sample.connection_of HTTP_METHOD_GET HTTP_VERSION_1_1)
    = Accepted con'
    /\ authority (uri (con_request con')) = CONST_STR_LEN "example.org".
Proof.
  eexists.
  rewrite (@single_host_sets_authority Sample.lp64 Sample.lenient 0
             [Some (Sample.with_headers [Sample.header "Host" "example.org"])]
             (Sample.connection_of HTTP_METHOD_GET HTTP_VERSION_1_1)
             (Sample.with_headers [Sample.header "Host" "example.org"])
             (Sample.connection_of HTTP_METHOD_GET HTTP_VERSION_1_1)
             (_http_header_new (CONST_STR_LEN "Host") (CONST_STR_LEN "example.org")));
    [split; reflexivity|split; reflexivity|reflexivity|cbn; lia].
Defined.

(** X16. For stored headers that are well formed, an accepted request has
    exactly one header named Host (under HTTP/1.0 as well) and a version
    that is set; every Expect header it has holds "100-continue" up to case;
    with an Expect header its version is HTTP/1.1 and the flag is set, and
    without one the flag is what it was. *)
Theorem accepted_request_headers `{Platform} `{Collaborators}
  errno (hp : heap) con hs con' :
  hp !! headers (con_request con) = Some (Some hs) ->
  Forall header_wf (stored hs) ->
  request_validate_header errno hp con = Accepted con' ->
  (exists h, named (CONST_STR_LEN "host") hs = [h])
  /\ http_version (con_request con) <> HTTP_VERSION_UNSET
  /\ Forall (fun h => expects_100_continue h = true) (expect_headers hs)
  /\ (expect_headers hs <> [] ->
      http_version (con_request con) = HTTP_VERSION_1_1
      /\ expect_100_cont con' = true)
  /\ (expect_headers hs = [] -> expect_100_cont con' = expect_100_cont con).
Proof.
  intros Hhs Hwf. unfold request_validate_header. rewrite Hhs.
  intros (c1 & c2 & c3 & c4 & c5 & c6 & c7 & E1 & E2 & E3 & E4 & E5 & E6 & E7 & E8)
    %accepted_checks.
  pose proof (get_hostname_one_host hs c2 c3 E3) as Hone.
  assert (http_version (con_request con) <> HTTP_VERSION_UNSET
          /\ expect_100_cont c1 = expect_100_cont con) as [Hver Hf1].
  { unfold check_version in E1.
    destruct (http_version (con_request con)); [done| |].
    - destruct (http_header_is _ _ _) as [[]|]; [| |done]; by injection E1 as <-.
    - destruct (http_header_is _ _ _) as [[]|]; [| |done]; by injection E1 as <-. }
  apply check_version_accepted in E1. apply check_raw_uri_accepted in E2.
  pose proof (get_hostname_frame hs c2 c3 E3) as [_ F3].
  apply get_hostname_accepted in E3 as (_ & _ & V3).
  apply need_hostname_accepted in E4.
  pose proof (may_override_hostname_frame c4 c5 E5) as [_ F5].
  apply may_override_hostname_accepted in E5 as (_ & _ & V5).
  apply content_length_header_frame in E6 as (_ & F6 & V6).
  apply method_policy_keeps_flag in E8. subst c2 c4.
  assert (http_version (con_request c6) = http_version (con_request con)) as Hv6
    by (by rewrite V6, V5, V3, E1).
  assert (expect_100_cont c6 = expect_100_cont con) as Hf6
    by (by rewrite F6, F5, F3, Hf1).
  rewrite expect_100_continue_spec in E7 by (by apply expect_headers_text).
  split; [exact Hone|]. split; [exact Hver|].
  destruct (decide (expect_headers hs = [])) as [Hnil|Hsome].
  - rewrite bool_decide_eq_true_2 in E7 by done. injection E7 as <-.
    rewrite Hnil. split_and!; [constructor|done|]. intros _. by rewrite E8.
  - rewrite bool_decide_eq_false_2 in E7 by done.
    destruct (forallb expects_100_continue (expect_headers hs)) eqn:Hall;
      cbn [negb] in E7; [|done].
    rewrite Hv6 in E7.
    destruct (http_version (con_request con)) eqn:Hv; [done|done|].
    injection E7 as <-. split_and!.
    + apply Forall_forall. intros h Hin. apply list_elem_of_In in Hin.
      by apply (proj1 (forallb_forall _ _) Hall).
    + intros _. split; [done|]. by rewrite E8.
    + done.
Qed.

Lemma accepted_request_headers_witness :
  let hs := Sample.with_headers
              [Sample.header "Host" "h"; Sample.header "Expect" "100-Continue"] in
  exists con',
    @request_validate_header Sample.lp64 Sample.lenient 0 [Some hs]
      (Sample.connection_of HTTP_METHOD_GET HTTP_VERSION_1_1)
    = Accepted con'
    /\ length (named (CONST_STR_LEN "host") hs) = 1%nat
    /\ expect_100_cont con' = true.
Proof.
  intros hs.
  assert (exists c,
            @request_validate_header Sample.lp64 Sample.lenient 0 [Some hs]
              (Sample.connection_of HTTP_METHOD_GET HTTP_VERSION_1_1)
            = Accepted c) as [c Hacc] by (eexists; reflexivity).
  exists c. split; [exact Hacc|].
  destruct (@accepted_request_headers Sample.lp64 Sample.lenient 0 [Some hs]
              (Sample.connection_of HTTP_METHOD_GET HTTP_VERSION_1_1) hs c
              eq_refl) as ([h Hone] & _ & _ & Hflag & _).
  - repeat apply Forall_cons_2; [..|apply Forall_nil_2];
      (split; [cbn; lia|repeat constructor]).
  - exact Hacc.
  - split; [by rewrite Hone|]. apply Hflag. discriminate.
Defined.

(** ** Content-Length values *)

Lemma decimal_step_nonneg acc ds :
  0 <= acc ->
  Forall (fun c => isdigit c = true) ds ->
  0 <= foldl (fun a c => a * 10 + (code c - 48)) acc ds.
Proof.
  intros Hacc Hds. revert acc Hacc.
  induction Hds as [|c ds Hc _ IH]; intros acc Hacc; cbn [foldl]; [done|].
  apply IH. unfold isdigit in Hc. lia.
Qed.

Lemma digits_all acc n ds :
  Forall (fun c => isdigit c = true) ds ->
  digits acc n ds
  = (foldl (fun a c => a * 10 + (code c - 48)) acc ds, (n + length ds)%nat, []).
Proof.
  intros Hds. revert acc n.
  induction Hds as [|c ds Hc _ IH]; intros acc n; cbn [digits foldl length].
  - by rewrite Nat.add_0_r.
  - rewrite Hc, IH. by rewrite Nat.add_succ_r.
Qed.

(** The conversion of a string of digits: its number, clamped. *)
Lemma str_to_off_t_digits `{Platform} errno ds :
  STR_OFF_T_MIN <= 0 ->
  ds <> [] ->
  Forall (fun c => isdigit c = true) ds ->
  str_to_off_t errno ds
  = if STR_OFF_T_MAX <? decimal_value ds
    then (STR_OFF_T_MAX, [], ERANGE)
    else (decimal_value ds, [], errno).
Proof.
  intros Hmin Hne Hds. destruct ds as [|c ds]; [done|].
  pose proof (decimal_step_nonneg 0 (c :: ds) ltac:(lia) Hds) as Hnn.
  pose proof Hds as Hds'. apply Forall_cons in Hds' as [Hc _].
  unfold str_to_off_t. cbn [skip_space].
  assert (isspace c = false) as -> by (unfold isspace, isdigit in *; lia).
  assert ((code c =? 45) = false) as -> by (unfold isdigit in Hc; lia).
  assert ((code c =? 43) = false) as -> by (unfold isdigit in Hc; lia).
  rewrite digits_all by done. cbn [length plus].
  fold (decimal_value (c :: ds)) in Hnn |- *.
  rewrite (proj2 (Z.ltb_ge (decimal_value (c :: ds)) STR_OFF_T_MIN)) by lia.
  done.
Qed.

(** X17. A request that reaches the Content-Length check and whose last
    Content-Length header has a value made of decimal digits only, on a
    platform with [STR_OFF_T_MIN < 0 <= STR_OFF_T_MAX]: a number above
    [STR_OFF_T_MAX] is rejected with 413; a number below it is stored as the
    content length and validation goes on; the number [STR_OFF_T_MAX]
    itself is stored if [errno] was not [ERANGE] when the validator was
    entered, and rejected with 413 if it was, because [errno] is read
    without having been cleared. *)
Theorem content_length_of_digits `{Platform} `{Collaborators}
  errno (hp : heap) con hs con5 hv :
  STR_OFF_T_MIN < 0 <= STR_OFF_T_MAX ->
  reaches errno hp con 5 hs con5 ->
  last (named (CONST_STR_LEN "content-length") hs) = Some hv ->
  (keylen hv + 2 <= length (data hv))%nat ->
  header_value hv <> [] ->
  Forall (fun c => isdigit c = true) (header_value hv) ->
  let n := decimal_value (header_value hv) in
  let out := request_validate_header errno hp con in
  let stored_n :=
    run (drop 6 (checks errno hs))
      (set_request con5 (set_content_length (con_request con5) n)) in
  (STR_OFF_T_MAX < n -> out = reject con5 413)
  /\ (n < STR_OFF_T_MAX -> out = stored_n)
  /\ (n = STR_OFF_T_MAX -> errno <> ERANGE -> out = stored_n)
  /\ (n = STR_OFF_T_MAX -> errno = ERANGE -> out = reject con5 413).
Proof.
  intros Hrange Hreach Hlast Hlen Hne Hds n out stored_n.
  subst out stored_n.
  rewrite (validate_from errno hp con 5 hs con5) by done.
  unfold checks. cbn [drop run].
  apply last_named in Hlast as (l & Hfind & Hat); [|repeat constructor].
  rewrite (content_length_header_present errno hs con5 l hv) by done.
  rewrite str_to_off_t_digits by (done || lia). fold n.
  pose proof (decimal_step_nonneg 0 (header_value hv) ltac:(lia) Hds) as Hnn.
  fold (decimal_value (header_value hv)) in Hnn. fold n in Hnn.
  split_and!.
  - intros Hbig. rewrite (proj2 (Z.ltb_lt _ _)) by done. cbn [fst snd peek].
    change (is_nul NUL) with true. cbn [negb].
    rewrite (proj2 (Z.ltb_ge _ _)) by lia.
    by rewrite !Z.eqb_refl, orb_true_r.
  - intros Hsmall. rewrite (proj2 (Z.ltb_ge _ _)) by lia. cbn [fst snd peek].
    change (is_nul NUL) with true. cbn [negb].
    rewrite (proj2 (Z.ltb_ge n 0)) by lia.
    rewrite (proj2 (Z.eqb_neq n STR_OFF_T_MIN)) by lia.
    by rewrite (proj2 (Z.eqb_neq n STR_OFF_T_MAX)) by lia.
  - intros Hmax Herr. rewrite (proj2 (Z.ltb_ge _ _)) by lia. cbn [fst snd peek].
    change (is_nul NUL) with true. cbn [negb].
    rewrite (proj2 (Z.ltb_ge n 0)) by lia.
    rewrite (proj2 (Z.eqb_neq errno ERANGE)) by done.
    by rewrite andb_false_r.
  - intros Hmax Herr. rewrite (proj2 (Z.ltb_ge _ _)) by lia. cbn [fst snd peek].
    change (is_nul NUL) with true. cbn [negb].
    rewrite (proj2 (Z.ltb_ge n 0)) by lia.
    rewrite (proj2 (Z.eqb_eq n STR_OFF_T_MAX)) by done.
    rewrite (proj2 (Z.eqb_eq errno ERANGE)) by done.
    by rewrite orb_true_r.
Qed.

(** X17 on a 64-bit platform: 2^63-1 after 12 is accepted when [errno] is 0
    and rejected with 413 when it is [ERANGE]. *)
Lemma content_length_of_digits_witness :
  let hs := Sample.with_headers
              [Sample.header "Host" "h"; Sample.header "Content-Length" "12";
               Sample.header "content-length" "9223372036854775807"] in
  let con := Sample.connection_of HTTP_METHOD_POST HTTP_VERSION_1_1 in
  (exists con',
     @request_validate_header Sample.lp64 Sample.lenient 0 [Some hs] con
     = Accepted con'
     /\ content_length (con_request con') = 2 ^ 63 - 1)
  /\ exists con',
       @request_validate_header Sample.lp64 Sample.lenient 34 [Some hs] con
       = Rejected 413 con'.
Proof.
  intros hs con.
  assert (exists con5,
            @reaches Sample.lp64 Sample.lenient 0 [Some hs] con 5 hs con5
            /\ @reaches Sample.lp64 Sample.lenient 34 [Some hs] con 5 hs con5)
    as (con5 & Hr0 & Hr34) by (eexists; split; split; reflexivity).
  assert (Forall (fun c => isdigit c = true)
            (header_value
               (_http_header_new (CONST_STR_LEN "content-length")
                  (CONST_STR_LEN "9223372036854775807")))) as Hds
    by (repeat constructor).
  split.
  - destruct (@content_length_of_digits Sample.lp64 Sample.lenient 0 [Some hs]
                con hs con5 _ ltac:(cbn; lia) Hr0 eq_refl ltac:(cbn; lia)
                ltac:(discriminate) Hds) as (_ & _ & Hmax & _).
    rewrite Hmax; [|reflexivity|discriminate].
    destruct Hr0 as [_ Hr0]. vm_compute in Hr0. injection Hr0 as <-.
    eexists. split; reflexivity.
  - destruct (@content_length_of_digits Sample.lp64 Sample.lenient 34 [Some hs]
                con hs con5 _ ltac:(cbn; lia) Hr34 eq_refl ltac:(cbn; lia)
                ltac:(discriminate) Hds) as (_ & _ & _ & Hstale).
    rewrite Hstale; [|reflexivity|reflexivity]. by eexists.
Defined.

Section LastContentLength.
Context `{Platform} `{Collaborators}.

Lemma find_last_none_named key hs :
  nul_free key ->
  last (named key hs) = None ->
  http_header_find_last hs key = None.
Proof.
  intros Hk Hlast. apply (proj2 (scan_backward_None _ _)).
  apply no_hit_filter. rewrite <- named_key_hit by done.
  destruct (named key hs) as [|h l] using rev_ind; [done|].
  by rewrite last_snoc in Hlast.
Qed.

(** X18. The Content-Length check of [request_validate_header] depends on
    the last Content-Length header only: two collections whose last
    Content-Length headers are the same (or that both have none) give the
    same outcome, whatever other Content-Length headers come before. So
    requests with conflicting lengths are not rejected; the last one
    counts. *)
Theorem last_content_length_counts errno hs hs' con :
  last (named (CONST_STR_LEN "content-length") hs)
  = last (named (CONST_STR_LEN "content-length") hs') ->
  content_length_header errno hs con = content_length_header errno hs' con.
Proof.
  assert (nul_free (CONST_STR_LEN "content-length")) as Hk by (repeat constructor).
  intros Hsame.
  destruct (last (named (CONST_STR_LEN "content-length") hs')) as [hv|] eqn:Hlast'.
  - apply last_named in Hsame as (l & Hfind & Hat); [|done].
    apply last_named in Hlast' as (l' & Hfind' & Hat'); [|done].
    unfold content_length_header, http_header_lookup, load_header.
    unfold header_at in Hat, Hat'. by rewrite Hfind, Hfind', Hat, Hat'.
  - apply find_last_none_named in Hsame; [|done].
    apply find_last_none_named in Hlast'; [|done].
    rewrite !content_length_header_absent; done.
Qed.

End LastContentLength.

(** X18 on "5" alone and on "7" followed by "5". *)
Lemma last_content_length_counts_witness :
  let check kvs :=
    @content_length_header Sample.lp64 Sample.lenient 0 (Sample.with_headers kvs)
      (Sample.connection_of HTTP_METHOD_POST HTTP_VERSION_1_1) in
  check [Sample.header "Content-Length" "7"; Sample.header "Content-Length" "5"]
  = check [Sample.header "Content-Length" "5"].
Proof.
  cbv zeta.
  apply (@last_content_length_counts Sample.lp64 Sample.lenient). reflexivity.
Defined.

(** ** The path "*" *)

Lemma code_inj x y : code x = code y -> x = y.
Proof.
  unfold code. intros Hxy.
  rewrite <- (ascii_N_embedding x), <- (ascii_N_embedding y). f_equal. lia.
Qed.

(** [strcmp] against a literal returns 0 exactly when the C string is the
    literal. *)
Lemma strcmp_c_str a b :
  nul_free b -> strcmp a b = 0 <-> c_str a = b.
Proof.
  intros Hb. revert b Hb. induction a as [|x a IH]; intros b Hb.
  - cbn [strcmp c_str peek]. change (code NUL) with 0.
    destruct Hb as [|y b Hy _]; cbn [peek]; [done|].
    unfold is_nul in Hy. split; [lia|done].
  - cbn [strcmp c_str]. destruct (is_nul x) eqn:Hx; cbn [orb].
    + assert (code x = 0) as -> by (unfold is_nul in Hx; lia).
      destruct Hb as [|y b Hy _]; cbn [peek]; [done|].
      unfold is_nul in Hy. split; [lia|done].
    + assert (code x <> 0) as Hx0 by (unfold is_nul in Hx; lia).
      destruct Hb as [|y b Hy Hb]; cbn [peek tail].
      * change (code NUL) with 0.
        rewrite (proj2 (Z.eqb_neq _ _)) by done. cbn [negb]. split; [lia|done].
      * destruct (Z.eqb_spec (code x) (code y)) as [Heq|Hne]; cbn [negb].
        -- apply code_inj in Heq as ->. rewrite IH by done.
           split; [by intros ->|by intros [= ->]].
        -- split; [lia|]. intros [= -> _]. done.
Qed.

(** X19. A request that reaches the URL check and whose raw URL the URL
    parser accepts with the path "*": for a method other than OPTIONS it is
    rejected with 400; for OPTIONS the path is decoded and simplified and
    validation goes on. The parser is run on the URI with path and query
    emptied. *)
Theorem star_path_only_for_options `{Platform} `{Collaborators}
  errno (hp : heap) con hs con4 :
  reaches errno hp con 4 hs con4 ->
  let req := con_request con4 in
  let parsed := parse_raw_url (set_path (set_query (uri req) []) []) in
  parsed.1 = true ->
  c_str (path parsed.2) = CONST_STR_LEN "*" ->
  let out := request_validate_header errno hp con in
  (http_method req <> HTTP_METHOD_OPTIONS ->
   out = reject (set_request con4 (set_uri req parsed.2)) 400)
  /\ (http_method req = HTTP_METHOD_OPTIONS ->
      out = run (drop 5 (checks errno hs))
              (set_request con4
                 (set_uri req
                    (set_path parsed.2
                       (path_simplify (url_decode (path parsed.2))))))).
Proof.
  intros Hreach req parsed Hok Hstar out. subst out.
  rewrite (validate_from errno hp con 4 hs con4) by done.
  unfold checks. cbn [drop run].
  unfold may_override_hostname, request_parse_url. fold req.
  unfold g_string_truncate_0.
  change (path (set_query (uri req) [])) with (path (uri req)).
  fold parsed. destruct parsed as [ok u] eqn:Hparsed. cbn [fst snd] in *.
  subst ok. cbn [negb].
  rewrite (proj2 (Z.eqb_eq _ _))
    by (apply strcmp_c_str; [repeat constructor|done]).
  cbn [andb]. split.
  - intros Hm. by destruct (http_method req).
  - intros ->. cbn [negb]. cbn [set_path path]. done.
Qed.

Lemma star_path_only_for_options_witness :
  let star : Collaborators :=
    {| parse_hostname := fun u => (true, Sample.set_host u (authority u));
       parse_raw_url := fun u => (true, set_path u (CONST_STR_LEN "*"));
       url_decode := fun s => s;
       path_simplify := fun s => s;
       connection_handle_direct := fun con => con |} in
  let hp := [Some (Sample.with_headers [Sample.header "Host" "h"])] in
  (exists con',
     @request_validate_header Sample.lp64 star 0 hp
       (Sample.connection_of HTTP_METHOD_GET HTTP_VERSION_1_1)
     = Rejected 400 con')
  /\ (exists con',
        @request_validate_header Sample.lp64 star 0 hp
          (Sample.connection_of HTTP_METHOD_OPTIONS HTTP_VERSION_1_1)
        = Accepted con').
Proof.
  intros star hp. split.
  - assert (exists c4,
              @reaches Sample.lp64 star 0 hp
                (Sample.connection_of HTTP_METHOD_GET HTTP_VERSION_1_1) 4
                (Sample.with_headers [Sample.header "Host" "h"]) c4)
      as [c4 Hreach] by (eexists; split; reflexivity).
    destruct (@star_path_only_for_options Sample.lp64 star 0 hp _ _ c4 Hreach
                eq_refl eq_refl) as [Hget _].
    rewrite Hget; [by eexists|].
    destruct Hreach as [_ Hr]. vm_compute in Hr. injection Hr as <-. discriminate.
  - assert (exists c4,
              @reaches Sample.lp64 star 0 hp
                (Sample.connection_of HTTP_METHOD_OPTIONS HTTP_VERSION_1_1) 4
                (Sample.with_headers [Sample.header "Host" "h"]) c4)
      as [c4 Hreach] by (eexists; split; reflexivity).
    destruct (@star_path_only_for_options Sample.lp64 star 0 hp _ _ c4 Hreach
                eq_refl eq_refl) as [_ Hopt].
    destruct Hreach as [_ Hr]. vm_compute in Hr. injection Hr as <-.
    rewrite Hopt; [|reflexivity]. by eexists.
Defined.

(** ** Collections built by inserts and removes *)

(** X20. A run of inserts stores the headers in the order of the inserts,
    after those that were there, duplicates included, and leaves the
    reference count alone. *)
Theorem inserts_keep_order headers kvs :
  let headers' := foldl (fun hs kv => http_header_insert hs kv.1 kv.2) headers kvs in
  stored headers'
  = stored headers ++ map (fun kv => _http_header_new kv.1 kv.2) kvs
  /\ refcount headers' = refcount headers.
Proof.
  cbv zeta. revert headers. induction kvs as [|kv kvs IH]; intros headers.
  - cbn. by rewrite app_nil_r.
  - cbn [foldl map]. destruct (IH (http_header_insert headers kv.1 kv.2)) as [-> ->].
    rewrite stored_insert. by rewrite <- app_assoc.
Qed.

(** X21. Well-formedness is kept: if every stored header has name, ": " and
    value in its buffer and no NUL byte, the same holds after an insert of a
    name and a value without NUL byte, and after a remove of any name. The
    empty collection has it. *)
Theorem insert_and_remove_keep_wf headers :
  Forall header_wf (stored headers) ->
  (forall key val,
     nul_free key -> nul_free val ->
     Forall header_wf (stored (http_header_insert headers key val)))
  /\ (forall key, Forall header_wf (stored (http_header_remove headers key).1))
  /\ Forall header_wf (stored Sample.no_headers).
Proof.
  intros Hwf. split_and!.
  - intros key val Hk Hv. rewrite stored_insert. apply Forall_app. split; [done|].
    apply Forall_singleton. by apply header_wf_new.
  - intros key. rewrite http_header_remove_without. cbn [fst].
    unfold stored, set_entries. cbn [entries]. rewrite elements_without.
    by apply Forall_filter_keeps.
  - constructor.
Qed.

Lemma insert_and_remove_keep_wf_witness :
  Forall header_wf
    (stored (http_header_remove
               (http_header_insert
                  (Sample.with_headers [Sample.header "Host" "h"])
                  (CONST_STR_LEN "Accept") (CONST_STR_LEN "x"))
               (CONST_STR_LEN "host")).1).
Proof.
  assert (Forall header_wf (stored (Sample.with_headers [Sample.header "Host" "h"])))
    as Hwf0.
  { repeat apply Forall_cons_2; [|apply Forall_nil_2].
    split; [cbn; lia|repeat constructor]. }
  destruct (insert_and_remove_keep_wf _ Hwf0) as (Hins & _ & _).
  pose proof (Hins (CONST_STR_LEN "Accept") (CONST_STR_LEN "x")
                ltac:(repeat constructor) ltac:(repeat constructor)) as Hwf1.
  destruct (insert_and_remove_keep_wf _ Hwf1) as (_ & Hrm & _).
  apply Hrm.
Defined.
